(** * Python-CrewAI: the three pipeline scripts, embedded and verified

    The repository holds three scripts:
    - [CrewAI Flow + Wikipedia + Nvidia API + LLM + Google/main.py]
      (the hand-rolled agents, with a Google fallback),
    - [CrewAI Flow + Wikipedia + Nvidia API + LLM +Google/main.py]
      (the same agents, Wikipedia only),
    - [Ultimate CrewAI Flow/main.py] (configuration, logging, a crew).

    Python strings are modelled as [string], read as sequences of code
    points below 256; exceptions as an error outcome; [print], [input],
    [logging] and every call that leaves the process as events of a
    trace.  The services behind those calls (Wikipedia, Google, the LLM,
    the file system, the crew framework) are oracles on an abstract world
    [W]: nothing is assumed about what they answer. *)

From Stdlib Require Import String Ascii List Bool Arith NArith ZArith Lia.
Import ListNotations.
Local Open Scope list_scope.
Local Open Scope string_scope.

(** ** Python string operations used by the scripts *)

Module PyStr.

Definition code (c : ascii) : N := N_of_ascii c.

(** Code points below 256 that [str.lower] changes: A-Z, and the
    Latin-1 capitals U+00C0..U+00DE except the multiplication sign. *)
Definition is_upper (c : ascii) : bool :=
  let n := code c in
  ((65 <=? n) && (n <=? 90) || (192 <=? n) && (n <=? 222) && negb (n =? 215))%N.

Definition lower_char (c : ascii) : ascii :=
  if is_upper c then ascii_of_N (code c + 32) else c.

(** [s.lower()] *)
Fixpoint lower (s : string) : string :=
  match s with
  | EmptyString => EmptyString
  | String c r => String (lower_char c) (lower r)
  end.

(** [s.startswith(p)] *)
Fixpoint startswith (p s : string) : bool :=
  match p, s with
  | EmptyString, _ => true
  | String a p', String b s' => Ascii.eqb a b && startswith p' s'
  | String _ _, EmptyString => false
  end.

(** [sub in s] for two strings: [sub] occurs in [s] as a substring. *)
Fixpoint contains (sub s : string) : bool :=
  startswith sub s ||
  match s with
  | EmptyString => false
  | String _ r => contains sub r
  end.

(** Whitespace below 256, as [str.strip()] understands it. *)
Definition isspace (c : ascii) : bool :=
  let n := code c in
  ((9 <=? n) && (n <=? 13) || (28 <=? n) && (n <=? 32) || (n =? 133) || (n =? 160))%N.

Fixpoint lstrip (s : string) : string :=
  match s with
  | EmptyString => EmptyString
  | String c r => if isspace c then lstrip r else s
  end.

Fixpoint rstrip (s : string) : string :=
  match s with
  | EmptyString => EmptyString
  | String c r =>
      match rstrip r with
      | EmptyString => if isspace c then EmptyString else String c EmptyString
      | r' => String c r'
      end
  end.

(** [s.strip()] *)
Definition strip (s : string) : string := rstrip (lstrip s).

(** [s[:n]] *)
Definition slice_to (n : nat) (s : string) : string := substring 0 n s.

(** The one-character string ["\n"]. *)
Definition nl : string := String (ascii_of_nat 10) EmptyString.

End PyStr.

Import PyStr.

(** ** Exceptions, events and the effect monad *)

(** The exception classes the scripts raise, catch or can meet. *)
Inductive exn : Type :=
| KeyboardInterrupt
| EOFError
| ConfigError (msg : string)
| APIError (msg : string)
| JSONDecodeError (msg : string)
| DisambiguationError (msg : string) (options : list string)
| PageError (msg : string)
| TypeError (msg : string)
| KeyError (msg : string)
| IndexError (msg : string)
| AttributeError (msg : string)
| OtherError (msg : string).

(** [isinstance(e, Exception)]: everything here but [KeyboardInterrupt]. *)
Definition is_Exception (e : exn) : bool :=
  match e with
  | KeyboardInterrupt => false
  | _ => true
  end.

(** [str(e)], as the f-strings and [logger.error(e)] render it. *)
Definition str_of_exn (e : exn) : string :=
  match e with
  | KeyboardInterrupt => ""
  | EOFError => "EOF when reading a line"
  | ConfigError m | APIError m | JSONDecodeError m | DisambiguationError m _
  | PageError m | TypeError m | KeyError m | IndexError m
  | AttributeError m | OtherError m => m
  end.

Inductive level : Type := INFO | WARNING | ERROR.

(** What a run does to the outside. *)
Inductive event : Type :=
| Print (line : string)                 (* print(line) *)
| Prompt (text : string)                (* the prompt written by input(text) *)
| Log (lvl : level) (msg : string)      (* logger.info / warning / error *)
| Call (api : string) (arg : string).   (* a call of an external service *)

(** One read of standard input: a line, or Ctrl-C at the prompt.  The end
    of the list is the end of the stream. *)
Inductive input_item : Type :=
| Line (text : string)
| CtrlC.

Inductive outcome (A : Type) : Type :=
| Ret (a : A)
| Raise (e : exn)
| Diverge.
Arguments Ret {A} a.
Arguments Raise {A} e.
Arguments Diverge {A}.

Record St (W : Type) : Type := mkSt { world : W; stdin : list input_item }.
Arguments mkSt {W} world stdin.
Arguments world {W} s.
Arguments stdin {W} s.

(** A computation: from a state to an outcome, a final state and the events
    it produced, in order. *)
Definition M (W A : Type) : Type := St W -> outcome A * St W * list event.

Section Monad.
Context {W : Type}.

Definition ret {A} (a : A) : M W A := fun s => (Ret a, s, []).

Definition bind {A B} (m : M W A) (k : A -> M W B) : M W B :=
  fun s =>
    match m s with
    | (Ret a, s1, t1) => let '(o, s2, t2) := k a s1 in (o, s2, (t1 ++ t2)%list)
    | (Raise e, s1, t1) => (Raise e, s1, t1)
    | (Diverge, s1, t1) => (Diverge, s1, t1)
    end.

Definition raise {A} (e : exn) : M W A := fun s => (Raise e, s, []).

Definition emit (ev : event) : M W unit := fun s => (Ret tt, s, [ev]).

Definition print (line : string) : M W unit := emit (Print line).

Definition log (lvl : level) (msg : string) : M W unit := emit (Log lvl msg).

(** [input(prompt)]: [EOFError] at the end of the stream. *)
Definition input (prompt : string) : M W string :=
  fun s =>
    match stdin s with
    | [] => (Raise EOFError, s, [Prompt prompt])
    | Line l :: rest => (Ret l, mkSt (world s) rest, [Prompt prompt])
    | CtrlC :: rest => (Raise KeyboardInterrupt, mkSt (world s) rest, [Prompt prompt])
    end.

(** A call of an external service [f], recorded under the name [api]. *)
Definition call {A} (api arg : string) (f : W -> outcome A * W) : M W A :=
  fun s =>
    let '(o, w) := f (world s) in (o, mkSt w (stdin s), [Call api arg]).

(** [try: body / except <classes>: handler]: [catches] tells which
    exceptions the clause takes. *)
Definition try_except {A} (body : M W A) (catches : exn -> bool)
           (handler : exn -> M W A) : M W A :=
  fun s =>
    match body s with
    | (Raise e, s1, t1) =>
        if catches e
        then let '(o, s2, t2) := handler e s1 in (o, s2, (t1 ++ t2)%list)
        else (Raise e, s1, t1)
    | r => r
    end.

(** [for x in xs: body] *)
Fixpoint for_each {A} (xs : list A) (body : A -> M W unit) : M W unit :=
  match xs with
  | [] => ret tt
  | x :: rest => bind (body x) (fun _ => for_each rest body)
  end.

(** [while True: body], with the loop variables of type [S]: the body
    answers [inl s'] to go round again and [inr r] on [break].  [fuel]
    bounds the number of rounds. *)
Fixpoint while_true {S R} (fuel : nat) (body : S -> M W (S + R)) (s : S) : M W R :=
  match fuel with
  | 0 => fun st => (Diverge, st, [])
  | Datatypes.S n =>
      bind (body s) (fun r =>
        match r with
        | inl s' => while_true n body s'
        | inr r => ret r
        end)
  end.

(** The loops of the scripts read one line per round, and a round at the
    end of the stream does the same thing as the next one would.  So one
    round more than there are lines decides the loop. *)
Definition input_loop {S R} (body : S -> M W (S + R)) (s : S) : M W R :=
  fun st => while_true (Datatypes.S (List.length (stdin st))) body s st.

End Monad.

Declare Scope py_scope.
Delimit Scope py_scope with py.
Notation "x <- m ;; k" := (bind m (fun x => k))
  (at level 61, m at next level, right associativity) : py_scope.
Notation "m ;; k" := (bind m (fun _ => k))
  (at level 61, right associativity) : py_scope.
Local Open Scope py_scope.

(** ** The two scripts with hand-rolled agents *)

Module Agents.

(** The two files differ in [write_code] only. *)
Inductive variant : Type := WithGoogle | WikipediaOnly.

(** What [wikipediaapi]'s page object answers. *)
Record WikipediaPage : Type := mkPage { page_exists : bool; page_summary : string }.

(** The services [write_code] calls. *)
Record Services (W : Type) : Type := mkServices {
  (* wikipedia.summary(task, sentences=2) *)
  wiki_simple_summary : string -> W -> outcome string * W;
  (* wikipediaapi.Wikipedia('english').page(task), fetched *)
  wiki_advanced_page : string -> W -> outcome WikipediaPage * W;
  (* list(search(task, num=1, stop=1, pause=2)) *)
  google_search : string -> W -> outcome (list string) * W
}.
Arguments wiki_simple_summary {W} s task w.
Arguments wiki_advanced_page {W} s task w.
Arguments google_search {W} s task w.

Section Flow.
Context {W : Type} (srv : Services W).

(* class ProjectManagerAgent *)
Definition initialize_project (tasks : list string) : M W (list string) :=
  print "Project Manager: Initializing project and assigning tasks." ;;
  ret tasks.

Definition review_feedback (feedback : string) : M W string :=
  print ("Project Manager: Reviewing client feedback: " ++ feedback) ;;
  ret "Adjust tasks if needed.".

(* class DeveloperAgent *)

(** The test of [write_code]'s [if]. *)
Definition is_question (task : string) : bool :=
  contains "what" (lower task) || contains "who" (lower task)
  || contains "net worth" (lower task).

Definition detected_message (v : variant) : string :=
  match v with
  | WithGoogle => "Developer: Detected a question. Fetching answer from Wikipedia or Google."
  | WikipediaOnly => "Developer: Detected a question. Fetching answer from Wikipedia."
  end.

(** The [else] under [if page.exists()]. *)
Definition no_page (v : variant) (task : string) : M W string :=
  match v with
  | WithGoogle =>
      print "Developer: No Wikipedia page found. Trying Google Search." ;;
      google_results <- call "googlesearch.search" task (google_search srv task) ;;
      match google_results with
      | first :: _ => ret ("Google Search result: " ++ first)
      | [] => ret "Developer: No relevant information found on Wikipedia or Google."
      end
  | WikipediaOnly => ret "Developer: No Wikipedia page found for this query."
  end.

Definition write_code (v : variant) (task : string) : M W string :=
  print ("Developer: Processing task: " ++ task) ;;
  if is_question task then
    print (detected_message v) ;;
    try_except
      (answer <- call "wikipedia.summary" task (wiki_simple_summary srv task) ;;
       print ("Developer: Wikipedia summary: " ++ answer) ;;
       ret answer)
      (fun _ => true)
      (fun _ =>
         print "Developer: Falling back to wikipedia-api for detailed search." ;;
         page <- call "wikipediaapi.page" task (wiki_advanced_page srv task) ;;
         if page_exists page
         then ret (slice_to 500 (page_summary page))
         else no_page v task)
  else
    print ("Developer: Writing code for task: " ++ task) ;;
    ret ("Code for " ++ task ++ " completed.").

(* class QAAgent *)
Definition test_code (code : string) : M W string :=
  print ("QA Agent: Testing code or answer: " ++ code) ;;
  ret "Code or answer passed QA.".

(* class DevOpsAgent *)
Definition deploy_code (code : string) : M W string :=
  print ("DevOps Agent: Deploying code or answer: " ++ code) ;;
  ret "Code or answer deployed successfully.".

(* class ClientCommunicationAgent *)
Definition send_update (message : string) : M W string :=
  print ("Client Communication Agent: Sending update to client: " ++ message) ;;
  ret "Client notified.".

Definition get_feedback : string := "Client feedback: Everything looks good!".

(** Step 1 of [crewai_flow]: one round of the [while True] that fills
    [tasks], and the loop from the empty list. *)
Definition read_round (tasks : list string) : M W (list string + list string) :=
  task <- input "> " ;;
  if String.eqb (lower task) "done"
  then ret (inr tasks)
  else ret (inl (tasks ++ [task])%list).

Definition read_tasks : M W (list string) := input_loop read_round [].

(** Steps 3 to 6: the body of [for task in assigned_tasks]. *)
Definition process_task (v : variant) (task : string) : M W unit :=
  print (nl ++ "Processing task: " ++ task) ;;
  result <- write_code v task ;;
  qa_result <- test_code result ;;
  if contains "passed" qa_result then
    deployment_result <- deploy_code result ;;
    print deployment_result ;;
    _ <- send_update ("Task completed: " ++ task) ;;
    ret tt
  else
    print "QA failed. Code or answer not deployed.".

Definition crewai_flow (v : variant) : M W unit :=
  print "Enter the tasks for the project (type 'done' to finish):" ;;
  tasks <- read_tasks ;;
  match tasks with
  | [] => print "No tasks provided. Exiting."
  | _ :: _ =>
      assigned_tasks <- initialize_project tasks ;;
      for_each assigned_tasks (process_task v) ;;
      _ <- review_feedback get_feedback ;;
      ret tt
  end.

End Flow.

End Agents.

(** ** The third script: configuration, logging and a crew *)

Module Ultimate.

(** What [json.loads] can return.  A dict is kept as its entries, one per
    key; a float as its text. *)
#[warnings="-register-all"]
Inductive json : Type :=
| JNull
| JBool (b : bool)
| JInt (n : Z)
| JFloat (text : string)
| JString (s : string)
| JList (items : list json)
| JDict (entries : list (string * json)).

Definition type_name (c : json) : string :=
  match c with
  | JNull => "NoneType"
  | JBool _ => "bool"
  | JInt _ => "int"
  | JFloat _ => "float"
  | JString _ => "str"
  | JList _ => "list"
  | JDict _ => "dict"
  end.

Definition is_string (key : string) (c : json) : bool :=
  match c with
  | JString s => String.eqb s key
  | _ => false
  end.

(** [key in c] for a string [key]: the keys of a dict, the items of a list,
    the substrings of a string; [TypeError] on the rest. *)
Definition py_in (key : string) (c : json) : outcome bool :=
  match c with
  | JDict entries => Ret (existsb (fun kv => String.eqb (fst kv) key) entries)
  | JList items => Ret (existsb (is_string key) items)
  | JString s => Ret (contains key s)
  | _ => Raise (TypeError ("argument of type '" ++ type_name c ++ "' is not iterable"))
  end.

Fixpoint lookup (key : string) (entries : list (string * json)) : option json :=
  match entries with
  | [] => None
  | (k, v) :: rest => if String.eqb k key then Some v else lookup key rest
  end.

(** [c[key]] for a string [key]. *)
Definition py_getitem (c : json) (key : string) : outcome json :=
  match c with
  | JDict entries =>
      match lookup key entries with
      | Some v => Ret v
      | None => Raise (KeyError ("'" ++ key ++ "'"))
      end
  | JList _ => Raise (TypeError "list indices must be integers or slices, not str")
  | JString _ => Raise (TypeError "string indices must be integers")
  | _ => Raise (TypeError ("'" ++ type_name c ++ "' object is not subscriptable"))
  end.

(** [c.get(key, default)] *)
Definition py_get (c : json) (key : string) (default : json) : outcome json :=
  match c with
  | JDict entries =>
      match lookup key entries with
      | Some v => Ret v
      | None => Ret default
      end
  | _ => Raise (AttributeError ("'" ++ type_name c ++ "' object has no attribute 'get'"))
  end.

(** Objects of the libraries (the Google service, agents, tasks, the crew)
    are known by a handle only. *)
Definition handle : Type := nat.

(** The services the script calls. *)
Record Services (W : Type) : Type := mkServices {
  (* os.path.exists(path) *)
  path_exists : string -> W -> outcome bool * W;
  (* open(path, "r") and f.read() *)
  read_file : string -> W -> outcome string * W;
  (* json.loads(content) *)
  json_loads : string -> outcome json;
  (* openai.api_key = key *)
  set_openai_key : json -> W -> W;
  (* build("customsearch", "v1", developerKey=key) *)
  build : json -> W -> outcome handle * W;
  (* google_service.cse().list(q=query, cx=google_cse_id).execute() *)
  cse_list_execute : handle -> string -> W -> outcome json * W;
  (* wikipedia.summary(query, sentences=2) *)
  wikipedia_summary : string -> W -> outcome string * W;
  (* openai.ChatCompletion.create(...).choices[0].message.content,
     by the content of the user message *)
  chat_completion : string -> W -> outcome string * W;
  (* Agent(role=..., ...) *)
  new_agent : string -> W -> outcome handle * W;
  (* Task(description=..., agent=..., ...) *)
  new_task : string -> handle -> W -> outcome handle * W;
  (* Crew(agents=..., tasks=..., verbose=True) *)
  new_crew : list handle -> list handle -> W -> outcome handle * W;
  (* crew.kickoff(inputs={"question": question}), printed with str() *)
  kickoff : handle -> string -> W -> outcome string * W;
  (* the text of a value inside an f-string *)
  py_format : json -> string
}.
Arguments path_exists {W} s path w.
Arguments read_file {W} s path w.
Arguments json_loads {W} s content.
Arguments set_openai_key {W} s key w.
Arguments build {W} s key w.
Arguments cse_list_execute {W} s service query w.
Arguments wikipedia_summary {W} s query w.
Arguments chat_completion {W} s content w.
Arguments new_agent {W} s role w.
Arguments new_task {W} s description agent w.
Arguments new_crew {W} s agents tasks w.
Arguments kickoff {W} s crew question w.
Arguments py_format {W} s value.

Section Script.
Context {W : Type} (srv : Services W).

(** A pure operation that may raise. *)
Definition lift {A} (o : outcome A) : M W A := fun s => (o, s, []).

Definition required_keys : list string :=
  ["OPENAI_API_KEY"; "GOOGLE_API_KEY"; "GOOGLE_CSE_ID"].

(** The body of [for key in required_keys]. *)
Definition require_key (config : json) (key : string) : M W unit :=
  present <- lift (py_in key config) ;;
  if negb present then
    raise (ConfigError ("Missing required key '" ++ key ++ "' in configuration file."))
  else ret tt.

Definition load_config (config_file : string) : M W json :=
  try_except
    (found <- call "os.path.exists" config_file (path_exists srv config_file) ;;
     if negb found then
       raise (ConfigError ("Configuration file '" ++ config_file
                           ++ "' not found. Please create it."))
     else
       raw <- call "open" config_file (read_file srv config_file) ;;
       let content := strip raw in
       if String.eqb content "" then
         raise (ConfigError ("Configuration file '" ++ config_file
                             ++ "' is empty. Please add the required keys."))
       else
         config <- lift (json_loads srv content) ;;
         for_each required_keys (require_key config) ;;
         ret config)
    is_Exception
    (fun e =>
       match e with
       | JSONDecodeError _ =>
           raise (ConfigError ("Invalid JSON in configuration file: " ++ str_of_exn e))
       | _ => raise (ConfigError ("Failed to load configuration: " ++ str_of_exn e))
       end).

Definition initialize_apis (config : json) : M W handle :=
  try_except
    (openai_key <- lift (py_getitem config "OPENAI_API_KEY") ;;
     (fun s => (Ret tt, mkSt (set_openai_key srv openai_key (world s)) (stdin s), [])) ;;
     google_api_key <- lift (py_getitem config "GOOGLE_API_KEY") ;;
     google_cse_id <- lift (py_getitem config "GOOGLE_CSE_ID") ;;
     google_service <- call "googleapiclient.discovery.build" "customsearch"
                            (build srv google_api_key) ;;
     log INFO "APIs initialized successfully." ;;
     ret google_service)
    is_Exception
    (fun e => raise (APIError ("Failed to initialize APIs: " ++ str_of_exn e))).

Definition search_google (query : string) (google_service : handle) : M W json :=
  try_except
    (log INFO ("Searching Google for: " ++ query) ;;
     res <- call "customsearch.cse.list" query
                 (cse_list_execute srv google_service query) ;;
     lift (py_get res "items" (JList [])))
    is_Exception
    (fun e =>
       log ERROR ("Google search failed: " ++ str_of_exn e) ;;
       ret (JList [])).

Definition search_wikipedia (query : string) : M W string :=
  try_except
    (log INFO ("Searching Wikipedia for: " ++ query) ;;
     call "wikipedia.summary" query (wikipedia_summary srv query))
    is_Exception
    (fun e =>
       match e with
       | DisambiguationError _ options =>
           log WARNING ("Disambiguation error for Wikipedia search: " ++ str_of_exn e) ;;
           match options with
           | first :: _ => call "wikipedia.summary" first (wikipedia_summary srv first)
           | [] => raise (IndexError "list index out of range")
           end
       | PageError _ =>
           log WARNING ("No Wikipedia page found for: " ++ query) ;;
           ret "No relevant Wikipedia page found."
       | _ =>
           log ERROR ("Wikipedia search failed: " ++ str_of_exn e) ;;
           ret "Error fetching Wikipedia data."
       end).

Definition ask_chatgpt (question context : string) : M W string :=
  try_except
    (log INFO ("Asking ChatGPT: " ++ question) ;;
     call "openai.ChatCompletion.create" question
          (chat_completion srv ("Context: " ++ context ++ nl ++ "Question: " ++ question)))
    is_Exception
    (fun e =>
       log ERROR ("ChatGPT request failed: " ++ str_of_exn e) ;;
       ret "Error generating response from ChatGPT.").

Definition create_researcher_agent : M W handle :=
  call "crewai.Agent" "Researcher" (new_agent srv "Researcher").

Definition create_analyzer_agent : M W handle :=
  call "crewai.Agent" "Analyzer" (new_agent srv "Analyzer").

(** The dict that [research_task] returns. *)
Record research : Type := mkResearch { google_results : json; wikipedia_results : string }.

Definition research_task (question : string) (google_service : handle) : M W research :=
  log INFO ("Starting research task for: " ++ question) ;;
  google_results <- search_google question google_service ;;
  wikipedia_results <- search_wikipedia question ;;
  ret (mkResearch google_results wikipedia_results).

Definition analyze_task (results : research) (question : string) : M W string :=
  log INFO ("Starting analysis task for: " ++ question) ;;
  let context :=
    "Google Results: " ++ py_format srv (google_results results) ++ nl
    ++ "Wikipedia Results: " ++ wikipedia_results results in
  ask_chatgpt question context.

Definition research_description : string :=
  "Search Google and Wikipedia for information related to the user's question.".
Definition analysis_description : string :=
  "Analyze the information found by the Researcher and provide a summarized answer.".

Definition create_crew (researcher analyzer : handle) : M W handle :=
  t1 <- call "crewai.Task" research_description
             (new_task srv research_description researcher) ;;
  t2 <- call "crewai.Task" analysis_description
             (new_task srv analysis_description analyzer) ;;
  call "crewai.Crew" "" (new_crew srv [researcher; analyzer] [t1; t2]).

Definition is_KeyboardInterrupt (e : exn) : bool :=
  match e with
  | KeyboardInterrupt => true
  | _ => false
  end.

(** One round of the [while True] of [main]: [inr tt] is [break], [inl tt]
    goes round again ([continue], the end of the body, or the handler of
    [except Exception]). *)
Definition main_round (crew : handle) (_ : unit) : M W (unit + unit) :=
  try_except
    (raw <- input (nl ++ "Ask a question (or type 'exit' to quit): ") ;;
     let question := strip raw in
     if String.eqb (lower question) "exit" then
       log INFO "Exiting the program." ;;
       ret (inr tt)
     else if String.eqb (lower question) "help" then
       print (nl ++ "Help:") ;;
       print "1. Type your question to get an answer." ;;
       print "2. Type 'exit' to quit the program." ;;
       ret (inl tt)
     else if String.eqb question "" then
       log WARNING "Please enter a valid question." ;;
       ret (inl tt)
     else
       log INFO ("Processing question: " ++ question) ;;
       results <- call "crew.kickoff" question (kickoff srv crew question) ;;
       print (nl ++ "Answer: " ++ results ++ nl) ;;
       ret (inl tt))
    (fun e => is_KeyboardInterrupt e || is_Exception e)
    (fun e =>
       match e with
       | KeyboardInterrupt =>
           log INFO (nl ++ "Exiting the program.") ;;
           ret (inr tt)
       | _ =>
           log ERROR ("An error occurred: " ++ str_of_exn e) ;;
           ret (inl tt)
       end).

Definition main (crew : handle) : M W unit :=
  log INFO "Starting CrewAI flow. Type 'exit' to quit or 'help' for instructions." ;;
  input_loop (main_round crew) tt.

(** The block under [if __name__ == "__main__"].  [setup_logging] only
    installs the handler behind [log]. *)
Definition entry_point : M W unit :=
  try_except
    (config <- load_config "config.json" ;;
     google_service <- initialize_apis config ;;
     researcher <- create_researcher_agent ;;
     analyzer <- create_analyzer_agent ;;
     crew <- create_crew researcher analyzer ;;
     main crew)
    is_Exception
    (fun e =>
       match e with
       | ConfigError _ => log ERROR (str_of_exn e)
       | APIError _ => log ERROR (str_of_exn e)
       | _ => log ERROR ("An unexpected error occurred: " ++ str_of_exn e)
       end).

End Script.

End Ultimate.

(** ** Vocabulary of the statements *)

Definition outcome_of {W A} (r : outcome A * St W * list event) : outcome A := fst (fst r).
Definition final_of {W A} (r : outcome A * St W * list event) : St W := snd (fst r).
Definition trace_of {W A} (r : outcome A * St W * list event) : list event := snd r.

(** [kw] occurs somewhere in [s]. *)
Definition mentions (kw s : string) : Prop := exists pre suf, s = pre ++ kw ++ suf.

(** The lowercased task contains one of the three keywords. *)
Definition question_like (task : string) : Prop :=
  mentions "what" (lower task) \/ mentions "who" (lower task)
  \/ mentions "net worth" (lower task).

(** The external calls of a trace, in order. *)
Definition calls (tr : list event) : list event :=
  filter (fun ev => match ev with Call _ _ => true | _ => false end) tr.

(** [s] without its prefix [p], when it starts with [p]. *)
Fixpoint strip_prefix (p s : string) : option string :=
  match p, s with
  | EmptyString, _ => Some s
  | String a p', String b s' => if Ascii.eqb a b then strip_prefix p' s' else None
  | String _ _, EmptyString => None
  end.

(** What follows [p] in the printed lines that start with [p], in order. *)
Fixpoint printed_after (p : string) (tr : list event) : list string :=
  match tr with
  | [] => []
  | Print line :: rest =>
      match strip_prefix p line with
      | Some t => t :: printed_after p rest
      | None => printed_after p rest
      end
  | _ :: rest => printed_after p rest
  end.

(** The tasks the loop of [crewai_flow] took up, the results handed to QA and
    to DevOps, and the tasks the client was told about. *)
Definition processed : list event -> list string :=
  printed_after (nl ++ "Processing task: ").
Definition qa_tested : list event -> list string :=
  printed_after "QA Agent: Testing code or answer: ".
Definition deployed : list event -> list string :=
  printed_after "DevOps Agent: Deploying code or answer: ".
Definition notified : list event -> list string :=
  printed_after "Client Communication Agent: Sending update to client: Task completed: ".

Definition qa_failed_line : event := Print "QA failed. Code or answer not deployed.".

(** A computation that never ends with an exception. *)
Definition never_raises {W A} (m : M W A) : Prop :=
  forall st e, outcome_of (m st) <> Raise e.

(** Every event of every run of [m] satisfies [P]. *)
Definition emits {W A} (P : event -> Prop) (m : M W A) : Prop :=
  forall st, Forall P (trace_of (m st)).

(** Traces that say nothing about tasks, QA, deployment or notification. *)
Definition silent (tr : list event) : Prop :=
  processed tr = [] /\ qa_tested tr = [] /\ deployed tr = [] /\ notified tr = []
  /\ ~ In qa_failed_line tr.

(** A printed line that starts with none of the marked prefixes. *)
Definition plain_line (line : string) : Prop :=
  strip_prefix (nl ++ "Processing task: ") line = None /\
  strip_prefix "QA Agent: Testing code or answer: " line = None /\
  strip_prefix "DevOps Agent: Deploying code or answer: " line = None /\
  strip_prefix "Client Communication Agent: Sending update to client: Task completed: "
               line = None /\
  line <> "QA failed. Code or answer not deployed.".

(** One round of the loop: the lines around [write_code]. *)
Definition round_head (task : string) : event := Print (nl ++ "Processing task: " ++ task).

Definition round_tail (task result : string) : list event :=
  [Print ("QA Agent: Testing code or answer: " ++ result);
   Print ("DevOps Agent: Deploying code or answer: " ++ result);
   Print "Code or answer deployed successfully.";
   Print ("Client Communication Agent: Sending update to client: Task completed: " ++ task)].

(** What the trace of the loop over [ts] tells: every result handed to QA
    is deployed, the tasks notified are the tasks taken up whose result
    reached QA, the tasks taken up are the first ones of [ts] in order, and
    the line of the failing QA branch is absent. *)
Definition loop_reading (ts : list string) (tr : list event) : Prop :=
  deployed tr = qa_tested tr /\
  notified tr = firstn (List.length (qa_tested tr)) (processed tr) /\
  (exists k, processed tr = firstn k ts) /\
  ~ In qa_failed_line tr.

(** The fixed lines of [crewai_flow] around the loop. *)
Definition enter_line : event :=
  Print "Enter the tasks for the project (type 'done' to finish):".
Definition initializing_line : event :=
  Print "Project Manager: Initializing project and assigning tasks.".
Definition reviewing_line : event :=
  Print "Project Manager: Reviewing client feedback: Client feedback: Everything looks good!".

(** A line that is not the sentinel of the two hand-rolled scripts. *)
Definition not_done (line : string) : Prop := lower line <> "done".

(** A string of [n] copies of [c]. *)
Fixpoint replicate (n : nat) (c : ascii) : string :=
  match n with
  | 0 => EmptyString
  | S k => String c (replicate k c)
  end.

Section AgentsVocabulary.
Import Agents.
Context {W : Type} (srv : Services W).

(** [write_code] announces the question branch right after its first line. *)
Definition selects_question (v : variant) (task : string) (st : St W) : Prop :=
  exists rest,
    trace_of (write_code srv v task st)
    = Print ("Developer: Processing task: " ++ task) :: Print (detected_message v) :: rest.

(** [write_code] takes the task branch: the two lines, the template, no call. *)
Definition selects_task (v : variant) (task : string) (st : St W) : Prop :=
  write_code srv v task st
  = (Ret ("Code for " ++ task ++ " completed."), st,
     [Print ("Developer: Processing task: " ++ task);
      Print ("Developer: Writing code for task: " ++ task)]).

(** The chain of the question branch: the summary service first; when it
    raises, the page service, whose summary is cut at 500 characters; when
    the page does not exist, the search service (Google variant) or the
    fixed string; each service is called once, in this order. *)
Definition answer_chain (v : variant) (task : string) (st : St W) : Prop :=
  let run := write_code srv v task st in
  let c1 := Call "wikipedia.summary" task in
  let c2 := Call "wikipediaapi.page" task in
  let c3 := Call "googlesearch.search" task in
  (forall answer w1,
      wiki_simple_summary srv task (world st) = (Ret answer, w1) ->
      outcome_of run = Ret answer /\ calls (trace_of run) = [c1]) /\
  (forall e w1 page w2,
      wiki_simple_summary srv task (world st) = (Raise e, w1) ->
      wiki_advanced_page srv task w1 = (Ret page, w2) ->
      (page_exists page = true ->
       outcome_of run = Ret (slice_to 500 (page_summary page))
       /\ calls (trace_of run) = [c1; c2]) /\
      (page_exists page = false ->
       match v with
       | WikipediaOnly =>
           outcome_of run = Ret "Developer: No Wikipedia page found for this query."
           /\ calls (trace_of run) = [c1; c2]
       | WithGoogle =>
           forall results w3,
             google_search srv task w2 = (Ret results, w3) ->
             outcome_of run
             = Ret (match results with
                    | first :: _ => "Google Search result: " ++ first
                    | [] => "Developer: No relevant information found on Wikipedia or Google."
                    end)
             /\ calls (trace_of run) = [c1; c2; c3]
       end)).

End AgentsVocabulary.

(** Services that answer the same whatever the query and the world. *)
Definition scripted (summary : outcome string) (page : outcome Agents.WikipediaPage)
           (search : outcome (list string)) : Agents.Services unit :=
  Agents.mkServices unit
    (fun _ w => (summary, w)) (fun _ w => (page, w)) (fun _ w => (search, w)).

Definition no_input : St unit := mkSt tt [].

(** A page whose summary has 501 characters, and services where the summary
    call fails and that page is found. *)
Definition long_page : Agents.WikipediaPage := Agents.mkPage true (replicate 501 "a").

Definition long_page_services : Agents.Services unit :=
  scripted (Raise (PageError "no summary")) (Ret long_page) (Ret []).

(** Services where the summary call fails, no page exists and the search
    finds one address. *)
Definition search_only_services : Agents.Services unit :=
  scripted (Raise (PageError "no summary")) (Ret (Agents.mkPage false ""))
           (Ret ["https://example.org/ada"]).

(** *** The third script *)

Definition missing_file_message (config_file : string) : string :=
  "Failed to load configuration: Configuration file '" ++ config_file
  ++ "' not found. Please create it.".

Definition empty_file_message (config_file : string) : string :=
  "Failed to load configuration: Configuration file '" ++ config_file
  ++ "' is empty. Please add the required keys.".

Definition invalid_json_message (detail : string) : string :=
  "Invalid JSON in configuration file: " ++ detail.

Definition missing_key_message (key : string) : string :=
  "Failed to load configuration: Missing required key '" ++ key
  ++ "' in configuration file.".

(** The dict has no entry under [key]. *)
Definition lacks (entries : list (string * Ultimate.json)) (key : string) : Prop :=
  ~ In key (map fst entries).

(** The call that [initialize_apis] makes to set up the Google service. *)
Definition api_initialized (tr : list event) : Prop :=
  exists arg, In (Call "googleapiclient.discovery.build" arg) tr.

(** The steps of the entry point before [main]. *)
Definition startup {W : Type} (srv : Ultimate.Services W) : M W Ultimate.handle :=
  (config <- Ultimate.load_config srv "config.json" ;;
   google_service <- Ultimate.initialize_apis srv config ;;
   researcher <- Ultimate.create_researcher_agent srv ;;
   analyzer <- Ultimate.create_analyzer_agent srv ;;
   Ultimate.create_crew srv researcher analyzer)%py.

(** A line that is not the sentinel of the third script. *)
Definition not_exit (line : string) : Prop := lower (strip line) <> "exit".

(** The prompt of the third script. *)
Definition ask_prompt : event := Prompt (nl ++ "Ask a question (or type 'exit' to quit): ").

(** A failure of a service, as opposed to Ctrl-C. *)
Definition api_failure (e : exn) : Prop := is_Exception e = true.

(** A crew that neither hangs nor is interrupted. *)
Definition crew_answers {W : Type} (srv : Ultimate.Services W) : Prop :=
  forall crew question w,
    match fst (Ultimate.kickoff srv crew question w) with
    | Ret _ => True
    | Raise e => api_failure e
    | Diverge => False
    end.

(** Services for the third script over a world without state: the text of
    the configuration file if there is one, a parser, and the answers of
    Wikipedia, of the agent constructor and of the crew. *)
Definition scripted_ultimate (file : option string)
           (parse : string -> outcome Ultimate.json)
           (wiki : string -> outcome string)
           (agent : outcome Ultimate.handle) (answer : string -> outcome string)
  : Ultimate.Services unit :=
  Ultimate.mkServices unit
    (fun _ w => (Ret (match file with Some _ => true | None => false end), w))
    (fun _ w => (match file with
                 | Some text => Ret text
                 | None => Raise (OtherError "No such file or directory")
                 end, w))
    parse
    (fun _ w => w)
    (fun _ w => (Ret 0, w))
    (fun _ _ w => (Ret (Ultimate.JDict []), w))
    (fun query w => (wiki query, w))
    (fun _ w => (Ret "An answer.", w))
    (fun _ w => (agent, w))
    (fun _ _ w => (Ret 1, w))
    (fun _ _ w => (Ret 2, w))
    (fun _ question w => (answer question, w))
    (fun _ => "[]").

(** The double quote, and a configuration text with the three keys. *)
Definition dq : string := String (ascii_of_nat 34) EmptyString.

Definition full_config_text : string :=
  "{" ++ dq ++ "OPENAI_API_KEY" ++ dq ++ ": " ++ dq ++ "sk" ++ dq ++ ", "
  ++ dq ++ "GOOGLE_API_KEY" ++ dq ++ ": " ++ dq ++ "gk" ++ dq ++ ", "
  ++ dq ++ "GOOGLE_CSE_ID" ++ dq ++ ": " ++ dq ++ "cx" ++ dq ++ "}".

Definition full_config : Ultimate.json :=
  Ultimate.JDict [("OPENAI_API_KEY", Ultimate.JString "sk");
                  ("GOOGLE_API_KEY", Ultimate.JString "gk");
                  ("GOOGLE_CSE_ID", Ultimate.JString "cx")].

(** A parser that knows the empty object and that text. *)
Definition parse_known (content : string) : outcome Ultimate.json :=
  if String.eqb content "{}" then Ret (Ultimate.JDict [])
  else if String.eqb content full_config_text then Ret full_config
  else Raise (JSONDecodeError "Expecting value: line 1 column 1 (char 0)").

(** A configuration file that holds an empty object between blanks. *)
Definition empty_object_services : Ultimate.Services unit :=
  scripted_ultimate (Some " {} ") parse_known (fun _ => Ret "A summary.") (Ret 3)
                    (fun _ => Ret "An answer.").

(** Wikipedia finds "Mercury" ambiguous and has no page for the first
    option it offers. *)
Definition no_page_error : exn :=
  PageError "Page id does not match any pages. Try another id!".

Definition ambiguous_services : Ultimate.Services unit :=
  scripted_ultimate (Some full_config_text) parse_known
    (fun query =>
       if String.eqb query "Mercury"
       then Raise (DisambiguationError "Mercury may refer to several pages"
                                       ["Mercury (planet)"; "Mercury (element)"])
       else Raise no_page_error)
    (Ret 3) (fun _ => Ret "An answer.").

(** The configuration is complete and the agent constructor fails. *)
Definition agent_fails_services : Ultimate.Services unit :=
  scripted_ultimate (Some full_config_text) parse_known (fun _ => Ret "A summary.")
    (Raise (OtherError "agent rejected")) (fun _ => Ret "An answer.").

(** The configuration is complete and the crew fails on every question. *)
Definition crew_fails_services : Ultimate.Services unit :=
  scripted_ultimate (Some full_config_text) parse_known (fun _ => Ret "A summary.")
    (Ret 3) (fun _ => Raise (OtherError "rate limit")).

(** *** Vocabulary of the further properties *)

(** A computation that does not hang. *)
Definition never_diverges {W A} (m : M W A) : Prop :=
  forall st, outcome_of (m st) <> Diverge.

(** A computation that leaves standard input as it finds it. *)
Definition keeps_stdin {W A} (m : M W A) : Prop :=
  forall st, stdin (final_of (m st)) = stdin st.

(** The services of the hand-rolled scripts answer or raise: none hangs. *)
Definition services_respond {W : Type} (srv : Agents.Services W) : Prop :=
  forall task w,
    fst (Agents.wiki_simple_summary srv task w) <> Diverge /\
    fst (Agents.wiki_advanced_page srv task w) <> Diverge /\
    fst (Agents.google_search srv task w) <> Diverge.


(** The questions handed to the crew, in order. *)
Fixpoint asked (tr : list event) : list string :=
  match tr with
  | [] => []
  | Call api arg :: rest =>
      if String.eqb api "crew.kickoff" then arg :: asked rest else asked rest
  | _ :: rest => asked rest
  end.

(** What [main] makes of the lines it reads: stripped, and neither empty
    nor a request for help. *)
Definition questions (lines : list string) : list string :=
  filter (fun q => negb (String.eqb (lower q) "help") && negb (String.eqb q ""))
         (map strip lines).

Definition not_a_prompt (ev : event) : Prop :=
  match ev with
  | Prompt _ => False
  | _ => True
  end.

(** An agent or a crew is constructed. *)
Definition constructs (ev : event) : Prop :=
  exists arg, ev = Call "crewai.Agent" arg \/ ev = Call "crewai.Task" arg
              \/ ev = Call "crewai.Crew" arg.

(** The value of [key] in a dict as [json.loads] returns it. *)
Definition value_of (entries : list (string * Ultimate.json)) (key : string)
  : Ultimate.json :=
  match Ultimate.lookup key entries with
  | Some v => v
  | None => Ultimate.JNull
  end.

(** The summary call fails and so does the page call. *)
Definition failing_page_services : Agents.Services unit :=
  scripted (Raise (PageError "no summary")) (Raise (OtherError "connection reset"))
           (Ret []).

(** No summary, no page, and the search fails. *)
Definition failing_search_services : Agents.Services unit :=
  scripted (Raise (PageError "no summary")) (Ret (Agents.mkPage false ""))
           (Raise (OtherError "HTTP Error 429")).

(** The summary call fails and a page with a short summary is found. *)
Definition short_page : Agents.WikipediaPage :=
  Agents.mkPage true "Ada Lovelace was a mathematician.".

Definition short_page_services : Agents.Services unit :=
  scripted (Raise (PageError "no summary")) (Ret short_page) (Ret []).

(** A configuration file that holds the list of the three key names. *)
Definition list_config_text : string :=
  "[" ++ dq ++ "OPENAI_API_KEY" ++ dq ++ ", " ++ dq ++ "GOOGLE_API_KEY" ++ dq
  ++ ", " ++ dq ++ "GOOGLE_CSE_ID" ++ dq ++ "]".

Definition list_config : Ultimate.json :=
  Ultimate.JList [Ultimate.JString "OPENAI_API_KEY"; Ultimate.JString "GOOGLE_API_KEY";
                  Ultimate.JString "GOOGLE_CSE_ID"].

Definition list_config_services : Ultimate.Services unit :=
  scripted_ultimate (Some list_config_text)
    (fun content =>
       if String.eqb content list_config_text then Ret list_config
       else Raise (JSONDecodeError "Expecting value: line 1 column 1 (char 0)"))
    (fun _ => Ret "A summary.") (Ret 3) (fun _ => Ret "An answer.").

(** The configuration file is there and cannot be read. *)
Definition unreadable_file_services : Ultimate.Services unit :=
  Ultimate.mkServices unit
    (fun _ w => (Ret true, w))
    (fun _ w => (Raise (OtherError "Permission denied"), w))
    parse_known
    (fun _ w => w)
    (fun _ w => (Ret 0, w))
    (fun _ _ w => (Ret (Ultimate.JDict []), w))
    (fun query w => (Ret "A summary.", w))
    (fun _ w => (Ret "An answer.", w))
    (fun _ w => (Ret 3, w))
    (fun _ _ w => (Ret 1, w))
    (fun _ _ w => (Ret 2, w))
    (fun _ question w => (Ret "An answer.", w))
    (fun _ => "[]").

(** A complete configuration, and a Google service that cannot be built. *)
Definition build_fails_services : Ultimate.Services unit :=
  Ultimate.mkServices unit
    (fun _ w => (Ret true, w))
    (fun _ w => (Ret full_config_text, w))
    parse_known
    (fun _ w => w)
    (fun _ w => (Raise (OtherError "invalid developer key"), w))
    (fun _ _ w => (Raise (OtherError "quota exceeded"), w))
    (fun query w => (Ret "A summary.", w))
    (fun _ w => (Raise (OtherError "model overloaded"), w))
    (fun _ w => (Ret 3, w))
    (fun _ _ w => (Ret 1, w))
    (fun _ _ w => (Ret 2, w))
    (fun _ question w => (Ret "An answer.", w))
    (fun _ => "[]").

(** ** Properties of the string operations *)

Lemma startswith_app (p s : string) : startswith p (p ++ s) = true.
Proof.
  induction p as [|a p IH]; simpl; [reflexivity|].
  now rewrite Ascii.eqb_refl, IH.
Qed.

Lemma startswith_spec (p s : string) :
  startswith p s = true <-> exists suf, s = p ++ suf.
Proof.
  split.
  - revert s; induction p as [|a p IH]; intros s H.
    + exists s; reflexivity.
    + destruct s as [|b s]; simpl in H; [discriminate|].
      apply andb_true_iff in H as [Hab Hps].
      apply Ascii.eqb_eq in Hab; subst b.
      destruct (IH _ Hps) as [suf ->].
      exists suf; reflexivity.
  - intros [suf ->]; apply startswith_app.
Qed.

Lemma contains_startswith (sub s : string) :
  startswith sub s = true -> contains sub s = true.
Proof. intros H; destruct s; simpl; rewrite H; reflexivity. Qed.

(** The Python [in] on strings finds exactly the substrings. *)
Lemma contains_spec (sub s : string) :
  contains sub s = true <-> exists pre suf, s = pre ++ sub ++ suf.
Proof.
  split.
  - induction s as [|c s IH]; simpl; intros H.
    + rewrite orb_false_r in H.
      apply startswith_spec in H as [suf E].
      exists EmptyString, suf; exact E.
    + apply orb_true_iff in H as [H|H].
      * apply startswith_spec in H as [suf E].
        exists EmptyString, suf; exact E.
      * destruct (IH H) as (pre & suf & ->).
        exists (String c pre), suf; reflexivity.
  - intros (pre & suf & ->).
    induction pre as [|c pre IH]; simpl.
    + apply contains_startswith, startswith_app.
    + rewrite IH; apply orb_true_r.
Qed.

Lemma substring_0_length (n : nat) (s : string) :
  String.length (substring 0 n s) <= n.
Proof.
  revert s; induction n as [|n IH]; intros [|c s]; simpl; try lia.
  specialize (IH s); lia.
Qed.

Lemma slice_to_length (n : nat) (s : string) : String.length (slice_to n s) <= n.
Proof. apply substring_0_length. Qed.

(** ** The hand-rolled agents: the developer *)

Section DeveloperFacts.
Import Agents.
Context {W : Type} (srv : Services W).

Lemma is_question_spec (task : string) :
  is_question task = true <-> question_like task.
Proof.
  unfold is_question, question_like, mentions.
  rewrite !orb_true_iff, !contains_spec; tauto.
Qed.

Lemma write_code_task_branch (v : variant) (task : string) (st : St W) :
  is_question task = false -> selects_task srv v task st.
Proof.
  intros Hq; unfold selects_task, write_code.
  rewrite Hq; reflexivity.
Qed.

Lemma write_code_question_branch (v : variant) (task : string) (st : St W) :
  is_question task = true -> selects_question srv v task st.
Proof.
  intros Hq; unfold selects_question, write_code.
  rewrite Hq.
  unfold bind at 1; simpl.
  unfold bind at 1; simpl.
  match goal with |- context [try_except ?b ?c ?h st] => destruct (try_except b c h st) as [[o s] t] end.
  destruct o; simpl; eexists; reflexivity.
Qed.

Lemma branches_exclusive (v : variant) (task : string) (st : St W) :
  selects_question srv v task st -> selects_task srv v task st -> False.
Proof.
  intros [rest Hq] Ht; unfold selects_task in Ht.
  rewrite Ht in Hq; unfold trace_of in Hq; simpl in Hq.
  destruct v; discriminate Hq.
Qed.

(** The run of the question branch, by what the services answer. *)
Lemma write_code_summary (v : variant) (task : string) (st : St W) answer w1 :
  is_question task = true ->
  wiki_simple_summary srv task (world st) = (Ret answer, w1) ->
  write_code srv v task st
  = (Ret answer, mkSt w1 (stdin st),
     [Print ("Developer: Processing task: " ++ task); Print (detected_message v);
      Call "wikipedia.summary" task; Print ("Developer: Wikipedia summary: " ++ answer)]).
Proof.
  intros Hq Hs; unfold write_code; rewrite Hq.
  cbv [bind print emit try_except call ret]; rewrite Hs; reflexivity.
Qed.

Lemma write_code_page (v : variant) (task : string) (st : St W) e w1 page w2 :
  is_question task = true ->
  wiki_simple_summary srv task (world st) = (Raise e, w1) ->
  wiki_advanced_page srv task w1 = (Ret page, w2) ->
  page_exists page = true ->
  write_code srv v task st
  = (Ret (slice_to 500 (page_summary page)), mkSt w2 (stdin st),
     [Print ("Developer: Processing task: " ++ task); Print (detected_message v);
      Call "wikipedia.summary" task;
      Print "Developer: Falling back to wikipedia-api for detailed search.";
      Call "wikipediaapi.page" task]).
Proof.
  intros Hq Hs Hp Hx; unfold write_code; rewrite Hq.
  cbv [bind print emit try_except call ret world stdin]; destruct st as [w i].
  cbv [world] in Hs; rewrite Hs, Hp, Hx; reflexivity.
Qed.

Lemma write_code_no_page (v : variant) (task : string) (st : St W) e w1 page w2 :
  is_question task = true ->
  wiki_simple_summary srv task (world st) = (Raise e, w1) ->
  wiki_advanced_page srv task w1 = (Ret page, w2) ->
  page_exists page = false ->
  write_code srv v task st
  = let '(o, s, t) := no_page srv v task (mkSt w2 (stdin st)) in
    (o, s,
     [Print ("Developer: Processing task: " ++ task); Print (detected_message v);
      Call "wikipedia.summary" task;
      Print "Developer: Falling back to wikipedia-api for detailed search.";
      Call "wikipediaapi.page" task] ++ t)%list.
Proof.
  intros Hq Hs Hp Hx; unfold write_code; rewrite Hq.
  cbv [bind print emit try_except call ret world stdin]; destruct st as [w i].
  cbv [world] in Hs; rewrite Hs, Hp, Hx.
  destruct (no_page srv v task (mkSt w2 i)) as [[o s] t]; reflexivity.
Qed.

End DeveloperFacts.

(** C1. For every task, [write_code] takes the question branch exactly when
    the lowercased task contains "what", "who" or "net worth", and the task
    branch exactly when it contains none of them. *)
Theorem C1_classifier_by_keywords {W : Type} (srv : Agents.Services W)
        (v : Agents.variant) (task : string) (st : St W) :
  (selects_question srv v task st <-> question_like task) /\
  (selects_task srv v task st <-> ~ question_like task).
Proof.
  destruct (Agents.is_question task) eqn:Hq.
  - assert (Hl : question_like task) by (apply is_question_spec; exact Hq).
    assert (Hs := write_code_question_branch srv v task st Hq).
    split; split; intros H; try assumption.
    + intros _; exact (branches_exclusive srv v task st Hs H).
    + contradiction.
  - assert (Hl : ~ question_like task).
    { intros H; apply is_question_spec in H; congruence. }
    assert (Hs := write_code_task_branch srv v task st Hq).
    split; split; intros H; try assumption.
    + exfalso; exact (branches_exclusive srv v task st H Hs).
    + contradiction.
Qed.

(** C2. On the task branch, [write_code] returns "Code for <task> completed."
    with the task text as it was given. *)
Theorem C2_task_template {W : Type} (srv : Agents.Services W)
        (v : Agents.variant) (task : string) (st : St W) :
  Agents.is_question task = false ->
  outcome_of (Agents.write_code srv v task st) = Ret ("Code for " ++ task ++ " completed.").
Proof.
  intros Hq; rewrite (write_code_task_branch srv v task st Hq); reflexivity.
Qed.

Lemma C2_sort_a_list :
  Agents.is_question "Write a function to sort a list" = false /\
  outcome_of (Agents.write_code search_only_services Agents.WithGoogle
                "Write a function to sort a list" no_input)
  = Ret "Code for Write a function to sort a list completed.".
Proof.
  split; [reflexivity|].
  apply (C2_task_template search_only_services Agents.WithGoogle
           "Write a function to sort a list" no_input).
  reflexivity.
Defined.

(** C6, as the code has it.  On the question branch the summary service is
    called first and its answer returned; when it raises, the page service is
    called and, when the page exists, the first 500 characters of its summary
    are returned; when the page does not exist, the Google variant calls the
    search service and returns its first result after "Google Search result: ",
    or the fixed string when there is none, and the other variant returns its
    fixed string. *)
Theorem C6_answer_chain {W : Type} (srv : Agents.Services W)
        (v : Agents.variant) (task : string) (st : St W) :
  Agents.is_question task = true -> answer_chain srv v task st.
Proof.
  intros Hq; unfold answer_chain; split.
  - intros answer w1 Hs.
    rewrite (write_code_summary srv v task st answer w1 Hq Hs); split; reflexivity.
  - intros e w1 page w2 Hs Hp; split; intros Hx.
    + rewrite (write_code_page srv v task st e w1 page w2 Hq Hs Hp Hx).
      split; reflexivity.
    + rewrite (write_code_no_page srv v task st e w1 page w2 Hq Hs Hp Hx).
      destruct v; cbn [Agents.no_page].
      * intros results w3 Hg.
        cbv [bind print emit call ret world stdin]; rewrite Hg.
        destruct results; split; reflexivity.
      * split; reflexivity.
Qed.

Lemma C6_search_fallback :
  Agents.is_question "Who is Ada" = true /\
  answer_chain search_only_services Agents.WithGoogle "Who is Ada" no_input.
Proof.
  split; [reflexivity|].
  apply (C6_answer_chain search_only_services Agents.WithGoogle "Who is Ada" no_input).
  reflexivity.
Defined.

(** C6 as first stated does not hold: with a page summary of 501 characters
    the result is not the page summary. *)
Lemma C6_long_summary_is_cut :
  Agents.is_question "who" = true /\
  Agents.wiki_advanced_page long_page_services "who" tt = (Ret long_page, tt) /\
  Agents.page_exists long_page = true /\
  outcome_of (Agents.write_code long_page_services Agents.WithGoogle "who" no_input)
  = Ret (replicate 500 "a") /\
  replicate 500 "a" <> Agents.page_summary long_page.
Proof.
  repeat split; try reflexivity.
  intros H; apply (f_equal String.length) in H; vm_compute in H; discriminate H.
Qed.

(** C9. When the summary call raises and the page exists, [write_code]
    returns the page summary cut to its first 500 characters, so the result
    of this branch is never longer than 500. *)
Theorem C9_page_summary_cut {W : Type} (srv : Agents.Services W)
        (v : Agents.variant) (task : string) (st : St W)
        (e : exn) (w1 : W) (page : Agents.WikipediaPage) (w2 : W) :
  Agents.is_question task = true ->
  Agents.wiki_simple_summary srv task (world st) = (Raise e, w1) ->
  Agents.wiki_advanced_page srv task w1 = (Ret page, w2) ->
  Agents.page_exists page = true ->
  outcome_of (Agents.write_code srv v task st)
  = Ret (slice_to 500 (Agents.page_summary page)) /\
  forall r, outcome_of (Agents.write_code srv v task st) = Ret r ->
            String.length r <= 500.
Proof.
  intros Hq Hs Hp Hx.
  rewrite (write_code_page srv v task st e w1 page w2 Hq Hs Hp Hx).
  split; [reflexivity|].
  unfold outcome_of; simpl; intros r Hr.
  injection Hr as <-; apply slice_to_length.
Qed.

Lemma C9_long_page :
  String.length (Agents.page_summary long_page) = 501 /\
  outcome_of (Agents.write_code long_page_services Agents.WikipediaOnly "who" no_input)
  = Ret (slice_to 500 (Agents.page_summary long_page)) /\
  forall r, outcome_of (Agents.write_code long_page_services Agents.WikipediaOnly
                          "who" no_input) = Ret r ->
            String.length r <= 500.
Proof.
  split; [reflexivity|].
  apply (C9_page_summary_cut long_page_services Agents.WikipediaOnly "who" no_input
           (PageError "no summary") tt long_page tt); reflexivity.
Defined.

(** ** Inversion of the monad operations *)

Section MonadFacts.
Context {W : Type}.

Lemma bind_Ret_inv {A B} (m : M W A) (k : A -> M W B) (st s' : St W) (b : B)
      (t : list event) :
  bind m k st = (Ret b, s', t) ->
  exists a s1 t1 t2,
    m st = (Ret a, s1, t1) /\ k a s1 = (Ret b, s', t2) /\ t = (t1 ++ t2)%list.
Proof.
  unfold bind; destruct (m st) as [[[a|e|] s1] t1]; try discriminate.
  destruct (k a s1) as [[o s2] t2] eqn:K.
  intros H; injection H as -> -> <-.
  exists a, s1, t1, t2; auto.
Qed.

Lemma call_Ret_inv {A} (api arg : string) (f : W -> outcome A * W) (st s' : St W)
      (a : A) (t : list event) :
  call api arg f st = (Ret a, s', t) ->
  exists w, f (world st) = (Ret a, w) /\ s' = mkSt w (stdin st) /\ t = [Call api arg].
Proof.
  unfold call; destruct (f (world st)) as [o w].
  intros H; injection H as -> <- <-.
  exists w; auto.
Qed.

Lemma bind_assoc {A B C} (m : M W A) (k : A -> M W B) (h : B -> M W C) (st : St W) :
  bind (bind m k) h st = bind m (fun a => bind (k a) h) st.
Proof.
  unfold bind; destruct (m st) as [[[a|e|] s1] t1]; try reflexivity.
  destruct (k a s1) as [[[b|e|] s2] t2]; try reflexivity.
  destruct (h b s2) as [[o s3] t3]; now rewrite app_assoc.
Qed.

Lemma bind_ext {A B} (m : M W A) (k k' : A -> M W B) (st : St W) :
  (forall a s, k a s = k' a s) -> bind m k st = bind m k' st.
Proof.
  intros H; unfold bind; destruct (m st) as [[[a|e|] s1] t1]; try reflexivity.
  now rewrite H.
Qed.

Lemma never_raises_bind {A B} (m : M W A) (k : A -> M W B) :
  never_raises m -> (forall a, never_raises (k a)) -> never_raises (bind m k).
Proof.
  intros Hm Hk st e; specialize (Hm st); unfold bind, outcome_of in *.
  destruct (m st) as [[[a|e'|] s1] t1]; cbn [fst] in *;
    [| exfalso; exact (Hm e' eq_refl) | discriminate].
  specialize (Hk a s1 e); unfold outcome_of in Hk.
  destruct (k a s1) as [[o s2] t2]; exact Hk.
Qed.

Lemma never_raises_emit (ev : event) : never_raises (@emit W ev).
Proof. intros st e; discriminate. Qed.

Lemma never_raises_ret {A} (a : A) : never_raises (@ret W A a).
Proof. intros st e; discriminate. Qed.

(** A [try] whose clauses take every exception the body can raise, and
    whose handlers do not raise, does not raise. *)
Lemma never_raises_try {A} (body : M W A) (catches : exn -> bool)
      (handler : exn -> M W A) :
  (forall e, catches e = true) -> (forall e, never_raises (handler e)) ->
  never_raises (try_except body catches handler).
Proof.
  intros Hc Hh st e; unfold try_except, outcome_of.
  destruct (body st) as [[[a|e'|] s1] t1]; cbn [fst]; try discriminate.
  rewrite Hc; specialize (Hh e' s1 e); unfold outcome_of in Hh.
  destruct (handler e' s1) as [[o s2] t2]; exact Hh.
Qed.

Lemma never_raises_while_true {S R} (fuel : nat) (body : S -> M W (S + R)) (s : S) :
  (forall s, never_raises (body s)) -> never_raises (while_true fuel body s).
Proof.
  intros Hb; revert s; induction fuel as [|n IH]; intros s; cbn [while_true].
  - intros st e; discriminate.
  - apply never_raises_bind; [apply Hb|].
    intros [s'|r]; [apply IH | apply never_raises_ret].
Qed.

(** What escapes a [try] whose handlers do not raise was not taken by its
    clauses. *)
Lemma try_except_escapes {A} (body : M W A) (catches : exn -> bool)
      (handler : exn -> M W A) (st : St W) (e : exn) :
  (forall e', never_raises (handler e')) ->
  outcome_of (try_except body catches handler st) = Raise e ->
  catches e = false.
Proof.
  intros Hh; unfold try_except, outcome_of.
  destruct (body st) as [[[a|e'|] s1] t1]; cbn [fst]; try discriminate.
  destruct (catches e') eqn:C.
  - specialize (Hh e' s1 e); unfold outcome_of in Hh.
    destruct (handler e' s1) as [[o s2] t2]; intros H; contradiction.
  - intros H; injection H as <-; exact C.
Qed.

Lemma emits_ret {A} (P : event -> Prop) (a : A) : emits (W:=W) P (ret a).
Proof. intros st; constructor. Qed.

Lemma emits_raise {A} (P : event -> Prop) (e : exn) : emits P (@raise W A e).
Proof. intros st; constructor. Qed.

Lemma emits_emit (P : event -> Prop) (ev : event) : P ev -> emits (W:=W) P (emit ev).
Proof. intros H st; repeat constructor; exact H. Qed.

Lemma emits_input (P : event -> Prop) (prompt : string) :
  P (Prompt prompt) -> emits (W:=W) P (input prompt).
Proof.
  intros H st; unfold input, trace_of.
  destruct (stdin st) as [|[l|] r]; repeat constructor; exact H.
Qed.

Lemma emits_call {A} (P : event -> Prop) (api arg : string) (f : W -> outcome A * W) :
  P (Call api arg) -> emits P (call api arg f).
Proof.
  intros H st; unfold call, trace_of.
  destruct (f (world st)); repeat constructor; exact H.
Qed.

Lemma emits_bind {A B} (P : event -> Prop) (m : M W A) (k : A -> M W B) :
  emits P m -> (forall a, emits P (k a)) -> emits P (bind m k).
Proof.
  intros Hm Hk st; specialize (Hm st); unfold bind, trace_of in *.
  destruct (m st) as [[[a|e|] s1] t1]; cbn [snd] in *; try exact Hm.
  specialize (Hk a s1); unfold trace_of in Hk.
  destruct (k a s1) as [[o s2] t2]; cbn [snd] in *.
  apply Forall_app; split; assumption.
Qed.

Lemma emits_try {A} (P : event -> Prop) (body : M W A) (catches : exn -> bool)
      (handler : exn -> M W A) :
  emits P body -> (forall e, emits P (handler e)) ->
  emits P (try_except body catches handler).
Proof.
  intros Hb Hh st; specialize (Hb st); unfold try_except, trace_of in *.
  destruct (body st) as [[[a|e|] s1] t1]; cbn [snd] in *; try exact Hb.
  destruct (catches e); [|exact Hb].
  specialize (Hh e s1); unfold trace_of in Hh.
  destruct (handler e s1) as [[o s2] t2]; cbn [snd] in *.
  apply Forall_app; split; assumption.
Qed.

Lemma emits_for_each {A} (P : event -> Prop) (xs : list A) (body : A -> M W unit) :
  (forall x, emits P (body x)) -> emits P (for_each xs body).
Proof.
  intros Hb; induction xs as [|x xs IH]; cbn [for_each].
  - apply emits_ret.
  - apply emits_bind; [apply Hb | intros _; exact IH].
Qed.

Lemma emits_while_true {S R} (P : event -> Prop) (fuel : nat)
      (body : S -> M W (S + R)) (s : S) :
  (forall s, emits P (body s)) -> emits P (while_true fuel body s).
Proof.
  intros Hb; revert s; induction fuel as [|n IH]; intros s; cbn [while_true].
  - intros st; constructor.
  - apply emits_bind; [apply Hb|].
    intros [s'|r]; [apply IH | apply emits_ret].
Qed.

Lemma emits_input_loop {S R} (P : event -> Prop) (body : S -> M W (S + R)) (s : S) :
  (forall s, emits P (body s)) -> emits P (input_loop body s).
Proof. intros Hb st; unfold input_loop; apply emits_while_true; exact Hb. Qed.

End MonadFacts.

(** ** Reading the printed lines of a trace *)

Lemma strip_prefix_app (p t : string) : strip_prefix p (p ++ t) = Some t.
Proof.
  induction p as [|a p IH]; simpl; [reflexivity|].
  now rewrite Ascii.eqb_refl.
Qed.

Lemma printed_after_app (p : string) (a b : list event) :
  printed_after p (a ++ b) = (printed_after p a ++ printed_after p b)%list.
Proof.
  induction a as [|ev a IH]; simpl; [reflexivity|].
  destruct ev; try exact IH.
  destruct (strip_prefix p line); simpl; now rewrite IH.
Qed.

Lemma silent_nil : silent [].
Proof. repeat split; intros []. Qed.

Lemma silent_app (a b : list event) : silent a -> silent b -> silent (a ++ b).
Proof.
  unfold silent, processed, qa_tested, deployed, notified.
  intros (A1 & A2 & A3 & A4 & A5) (B1 & B2 & B3 & B4 & B5).
  rewrite !printed_after_app, A1, A2, A3, A4, B1, B2, B3, B4.
  repeat split; try reflexivity.
  rewrite in_app_iff; tauto.
Qed.

Lemma silent_cons_other (ev : event) (tr : list event) :
  match ev with Print _ => False | _ => True end -> silent tr -> silent (ev :: tr).
Proof.
  unfold silent, processed, qa_tested, deployed, notified, qa_failed_line.
  intros Hev (A1 & A2 & A3 & A4 & A5).
  destruct ev; try contradiction; simpl; repeat split; try assumption;
    intros [H|H]; try discriminate H; contradiction.
Qed.

Lemma silent_cons_print (line : string) (tr : list event) :
  plain_line line -> silent tr -> silent (Print line :: tr).
Proof.
  unfold silent, processed, qa_tested, deployed, notified, qa_failed_line.
  intros (P1 & P2 & P3 & P4 & P5) (A1 & A2 & A3 & A4 & A5).
  cbn [printed_after]; rewrite P1, P2, P3, P4.
  repeat split; try assumption.
  intros [H|H]; [injection H as H; contradiction | contradiction].
Qed.

Lemma plain_developer (rest : string) : plain_line ("Developer: " ++ rest).
Proof. repeat split; try reflexivity; discriminate. Qed.

Lemma plain_manager (rest : string) : plain_line ("Project Manager: " ++ rest).
Proof. repeat split; try reflexivity; discriminate. Qed.

Ltac silence :=
  repeat first
    [ apply silent_nil
    | apply silent_cons_other; [exact I|]
    | apply silent_cons_print;
      [ first [ apply (plain_developer _) | apply (plain_manager _)
              | repeat split; try reflexivity; discriminate ] |] ].

(** ** The hand-rolled agents: the flow *)

Section FlowFacts.
Import Agents.
Context {W : Type} (srv : Services W).

Lemma no_page_silent (v : variant) (task : string) (st : St W) :
  silent (trace_of (no_page srv v task st)).
Proof.
  destruct v; cbv [no_page bind print emit call ret trace_of snd].
  - destruct (google_search srv task (world st)) as [[[|r rs]| |] w]; simpl; silence.
  - silence.
Qed.

Lemma write_code_silent (v : variant) (task : string) (st : St W) :
  silent (trace_of (write_code srv v task st)).
Proof.
  unfold write_code; destruct (is_question task).
  - cbv [bind print emit try_except call ret].
    destruct (wiki_simple_summary srv task (world st)) as [[answer|e|] w1].
    + destruct v; simpl; silence.
    + cbn [world stdin].
      destruct (wiki_advanced_page srv task w1) as [[page|e'|] w2].
      * destruct (page_exists page).
        -- destruct v; simpl; silence.
        -- assert (H := no_page_silent v task (mkSt w2 (stdin st))).
           destruct (no_page srv v task (mkSt w2 (stdin st))) as [[o s] t].
           unfold trace_of in *; cbn [snd] in *.
           destruct v; simpl; silence; exact H.
      * destruct v; simpl; silence.
      * destruct v; simpl; silence.
    + destruct v; simpl; silence.
  - simpl; silence.
Qed.

Lemma process_task_run (v : variant) (task : string) (st : St W) :
  process_task srv v task st
  = let '(o, s1, t1) := write_code srv v task st in
    match o with
    | Ret result => (Ret tt, s1, round_head task :: t1 ++ round_tail task result)
    | Raise e => (Raise e, s1, round_head task :: t1)
    | Diverge => (Diverge, s1, round_head task :: t1)
    end%list.
Proof.
  unfold process_task; cbv [bind print emit].
  destruct (write_code srv v task st) as [[[result|e|] s1] t1]; reflexivity.
Qed.

Lemma reading_round_done (task result : string) (t1 : list event) :
  silent t1 ->
  let tb := (round_head task :: t1 ++ round_tail task result)%list in
  processed tb = [task] /\ qa_tested tb = [result] /\ deployed tb = [result]
  /\ notified tb = [task] /\ ~ In qa_failed_line tb.
Proof.
  intros (A1 & A2 & A3 & A4 & A5); unfold processed, qa_tested, deployed, notified in *.
  cbn zeta; unfold round_head.
  change (?a :: ?l ++ ?r)%list with ([a] ++ l ++ r)%list.
  rewrite !printed_after_app, A1, A2, A3, A4.
  repeat split; try (cbn [printed_after]; rewrite ?strip_prefix_app; reflexivity).
  rewrite !in_app_iff; unfold qa_failed_line, round_tail.
  intros [H|[H|H]]; [| contradiction |]; simpl in H;
    repeat (destruct H as [H|H]; [discriminate H|]); exact H.
Qed.

Lemma reading_round_aborted (task : string) (t1 : list event) :
  silent t1 ->
  let tb := round_head task :: t1 in
  processed tb = [task] /\ qa_tested tb = [] /\ deployed tb = []
  /\ notified tb = [] /\ ~ In qa_failed_line tb.
Proof.
  intros (A1 & A2 & A3 & A4 & A5); unfold processed, qa_tested, deployed, notified in *.
  cbn zeta; unfold round_head.
  change (?a :: ?l)%list with ([a] ++ l)%list.
  rewrite !printed_after_app, A1, A2, A3, A4.
  repeat split; try (cbn [printed_after]; rewrite ?strip_prefix_app; reflexivity).
  rewrite in_app_iff; unfold qa_failed_line.
  intros [[H|[]]|H]; [discriminate H | contradiction].
Qed.

Lemma loop_reading_nil (ts : list string) : loop_reading ts [].
Proof. repeat split; [exists 0; reflexivity | intros []]. Qed.

Lemma for_each_reading (v : variant) (ts : list string) (st : St W) :
  let run := for_each ts (process_task srv v) st in
  loop_reading ts (trace_of run) /\
  (outcome_of run = Ret tt ->
   processed (trace_of run) = ts /\ notified (trace_of run) = ts).
Proof.
  revert st; induction ts as [|task ts IH]; intros st.
  - split; [apply loop_reading_nil | split; reflexivity].
  - cbn [for_each]; unfold bind; rewrite process_task_run.
    pose proof (write_code_silent v task st) as Hs.
    destruct (write_code srv v task st) as [[[result|e|] s1] t1];
      unfold trace_of in Hs; cbn [snd] in Hs.
    + specialize (IH s1).
      destruct (for_each ts (process_task srv v) s1) as [[o2 s2] t2].
      unfold trace_of, outcome_of in *; cbn [fst snd] in *.
      destruct IH as [(D & N & [k P] & Q) C].
      destruct (reading_round_done task result t1 Hs) as (B1 & B2 & B3 & B4 & B5).
      cbn zeta in B1, B2, B3, B4, B5.
      unfold loop_reading, processed, qa_tested, deployed, notified in *.
      rewrite !printed_after_app, B1, B2, B3, B4.
      repeat split.
      * cbn [app]; now rewrite D.
      * cbn [app List.length firstn]; now rewrite N.
      * exists (S k); cbn [app firstn]; now rewrite P.
      * rewrite in_app_iff; tauto.
      * cbn [app]; now rewrite (proj1 (C H)).
      * cbn [app]; now rewrite (proj2 (C H)).
    + destruct (reading_round_aborted task t1 Hs) as (B1 & B2 & B3 & B4 & B5).
      cbn zeta in B1, B2, B3, B4, B5.
      unfold trace_of, outcome_of, loop_reading; cbn [fst snd].
      rewrite B1, B2, B3, B4.
      repeat split; try assumption; try discriminate.
      exists 1; reflexivity.
    + destruct (reading_round_aborted task t1 Hs) as (B1 & B2 & B3 & B4 & B5).
      cbn zeta in B1, B2, B3, B4, B5.
      unfold trace_of, outcome_of, loop_reading; cbn [fst snd].
      rewrite B1, B2, B3, B4.
      repeat split; try assumption; try discriminate.
      exists 1; reflexivity.
Qed.

(** *** The loop that reads the tasks *)

Lemma read_round_line (tasks : list string) (w : W) (line : string)
      (rest : list input_item) :
  read_round tasks (mkSt w (Line line :: rest))
  = (Ret (if String.eqb (lower line) "done"
          then inr tasks else inl (tasks ++ [line])%list),
     mkSt w rest, [Prompt "> "]).
Proof.
  unfold read_round, bind, input; cbn [stdin world].
  destruct (String.eqb (lower line) "done"); reflexivity.
Qed.

Lemma read_round_eof (tasks : list string) (w : W) :
  read_round tasks (mkSt w []) = (Raise EOFError, mkSt w [], [Prompt "> "]).
Proof. reflexivity. Qed.

Lemma read_round_ctrlc (tasks : list string) (w : W) (rest : list input_item) :
  read_round tasks (mkSt w (CtrlC :: rest))
  = (Raise KeyboardInterrupt, mkSt w rest, [Prompt "> "]).
Proof. reflexivity. Qed.

Lemma read_loop_silent (fuel : nat) (acc : list string) (st : St W) :
  silent (trace_of (while_true fuel read_round acc st)).
Proof.
  revert acc st; induction fuel as [|n IH]; intros acc st; [apply silent_nil|].
  cbn [while_true]; unfold bind at 1.
  destruct st as [w [|[line|] rest]].
  - rewrite read_round_eof; unfold trace_of; cbn [snd]; silence.
  - rewrite read_round_line.
    destruct (String.eqb (lower line) "done").
    + unfold trace_of; cbn; silence.
    + specialize (IH (acc ++ [line])%list (mkSt w rest)).
      destruct (while_true n read_round (acc ++ [line])%list (mkSt w rest)) as [[o s] t].
      unfold trace_of in *; cbn [snd] in *.
      apply (silent_app [Prompt "> "]); [silence | exact IH].
  - rewrite read_round_ctrlc; unfold trace_of; cbn [snd]; silence.
Qed.

(** The loop stops at the first line that is "done" once lowercased, keeps
    the lines before it and leaves the lines after it unread. *)
Lemma read_loop_run (pre : list string) (fuel : nat) (acc : list string) (w : W)
      (line : string) (rest : list input_item) :
  Forall not_done pre -> lower line = "done" -> List.length pre < fuel ->
  while_true fuel read_round acc (mkSt w (map Line pre ++ Line line :: rest)%list)
  = (Ret (acc ++ pre)%list, mkSt w rest, repeat (Prompt "> ") (S (List.length pre))).
Proof.
  intros Hpre Hline; revert fuel acc.
  induction Hpre as [|p pre Hp _ IH]; intros fuel acc Hf.
  - destruct fuel as [|n]; [inversion Hf|].
    cbn [while_true map app]; unfold bind at 1; rewrite read_round_line, Hline.
    cbn; now rewrite app_nil_r.
  - destruct fuel as [|n]; [inversion Hf|].
    cbn [while_true map app]; unfold bind at 1; rewrite read_round_line.
    apply String.eqb_neq in Hp; rewrite Hp.
    rewrite (IH n (acc ++ [p])%list) by (cbn in Hf; lia).
    cbn; now rewrite <- app_assoc.
Qed.

(** Without such a line the loop reads to the end of the stream and the
    last [input] raises. *)
Lemma read_loop_eof (lines : list string) (fuel : nat) (acc : list string) (w : W) :
  Forall not_done lines -> List.length lines < fuel ->
  while_true fuel read_round acc (mkSt w (map Line lines))
  = (Raise EOFError, mkSt w [], repeat (Prompt "> ") (S (List.length lines))).
Proof.
  intros Hl; revert fuel acc.
  induction Hl as [|p lines Hp _ IH]; intros fuel acc Hf.
  - destruct fuel as [|n]; [inversion Hf|]; reflexivity.
  - destruct fuel as [|n]; [inversion Hf|].
    cbn [while_true map]; unfold bind at 1; rewrite read_round_line.
    apply String.eqb_neq in Hp; rewrite Hp.
    rewrite (IH n (acc ++ [p])%list) by (cbn in Hf; lia).
    reflexivity.
Qed.

(** Whenever the loop hands over a task list, it stopped at a line that is
    "done" once lowercased, and the list is what was entered before it. *)
Lemma read_loop_returns (fuel : nat) (acc : list string) (st st' : St W)
      (tasks : list string) (tr : list event) :
  while_true fuel read_round acc st = (Ret tasks, st', tr) ->
  exists pre line,
    tasks = (acc ++ pre)%list /\
    stdin st = (map Line pre ++ Line line :: stdin st')%list /\
    lower line = "done" /\ Forall not_done pre /\ world st' = world st.
Proof.
  revert acc st tr; induction fuel as [|n IH]; intros acc st tr H; [discriminate H|].
  cbn [while_true] in H; unfold bind at 1 in H.
  destruct st as [w [|[line|] rest]]; try discriminate H.
  rewrite read_round_line in H.
  destruct (String.eqb (lower line) "done") eqn:E.
  - cbn in H; injection H as <- <- <-.
    exists [], line; rewrite app_nil_r.
    apply String.eqb_eq in E; repeat split; auto.
  - destruct (while_true n read_round (acc ++ [line])%list (mkSt w rest))
      as [[o s] t] eqn:R.
    destruct o; try discriminate H.
    injection H as -> -> <-.
    destruct (IH _ _ _ R) as (pre & l & -> & Hin & Hl & Hpre & Hw).
    exists (line :: pre), l; cbn [stdin world map app] in *.
    rewrite <- app_assoc, Hin; repeat split; auto.
    constructor; [apply String.eqb_neq; exact E | exact Hpre].
Qed.

(** The bound on the rounds is never met: the loop stops by itself. *)
Lemma read_loop_stops (fuel : nat) (acc : list string) (st : St W) :
  List.length (stdin st) < fuel ->
  outcome_of (while_true fuel read_round acc st) <> Diverge.
Proof.
  revert acc st; induction fuel as [|n IH]; intros acc st Hf; [inversion Hf|].
  cbn [while_true]; unfold bind at 1.
  destruct st as [w [|[line|] rest]];
    [rewrite read_round_eof; discriminate | | rewrite read_round_ctrlc; discriminate].
  rewrite read_round_line.
  destruct (String.eqb (lower line) "done"); [discriminate|].
  cbn [stdin List.length] in Hf.
  specialize (IH (acc ++ [line])%list (mkSt w rest)).
  destruct (while_true n read_round (acc ++ [line])%list (mkSt w rest)) as [[o s] t].
  unfold outcome_of in *; cbn [fst stdin] in *.
  destruct o; try discriminate; apply IH; lia.
Qed.

(** *** The whole flow *)

Lemma crewai_flow_run (v : variant) (st : St W) :
  crewai_flow srv v st
  = let '(o, s1, t1) := read_tasks st in
    match o with
    | Ret [] => (Ret tt, s1, enter_line :: t1 ++ [Print "No tasks provided. Exiting."])
    | Ret (t :: ts) =>
        let '(o2, s2, t2) := for_each (t :: ts) (process_task srv v) s1 in
        match o2 with
        | Ret _ => (Ret tt, s2, enter_line :: t1 ++ initializing_line :: t2 ++ [reviewing_line])
        | Raise e => (Raise e, s2, enter_line :: t1 ++ initializing_line :: t2)
        | Diverge => (Diverge, s2, enter_line :: t1 ++ initializing_line :: t2)
        end
    | Raise e => (Raise e, s1, enter_line :: t1)
    | Diverge => (Diverge, s1, enter_line :: t1)
    end%list.
Proof.
  unfold crewai_flow, bind at 1, print, emit.
  unfold bind at 1.
  destruct (read_tasks st) as [[[[|t ts]|e|] s1] t1]; try reflexivity.
  unfold initialize_project, review_feedback, get_feedback, print, emit, bind, ret.
  destruct (for_each (t :: ts) (process_task srv v) s1) as [[[[]|e|] s2] t2];
    cbn; rewrite ?app_nil_r; reflexivity.
Qed.

Lemma silent_frame (a b c : list event) :
  silent a -> silent c ->
  processed (a ++ b ++ c) = processed b /\ qa_tested (a ++ b ++ c) = qa_tested b /\
  deployed (a ++ b ++ c) = deployed b /\ notified (a ++ b ++ c) = notified b /\
  (In qa_failed_line (a ++ b ++ c) -> In qa_failed_line b).
Proof.
  unfold silent, processed, qa_tested, deployed, notified.
  intros (A1 & A2 & A3 & A4 & A5) (B1 & B2 & B3 & B4 & B5).
  rewrite !printed_after_app, A1, A2, A3, A4, B1, B2, B3, B4, !app_nil_r.
  repeat split; try reflexivity.
  rewrite !in_app_iff; tauto.
Qed.

Lemma silent_reading (ts : list string) (tr : list event) :
  silent tr -> loop_reading ts tr /\ notified tr = processed tr.
Proof.
  intros (A1 & A2 & A3 & A4 & A5); unfold loop_reading.
  rewrite A1, A2, A3, A4; repeat split; try assumption.
  exists 0; reflexivity.
Qed.

Lemma read_tasks_silent (st : St W) : silent (trace_of (read_tasks st)).
Proof. apply read_loop_silent. Qed.

Lemma frame_shape (a b : event) (t1 t2 c : list event) :
  (a :: t1 ++ b :: t2 ++ c = (a :: t1 ++ [b]) ++ t2 ++ c)%list.
Proof. cbn; rewrite <- app_assoc; reflexivity. Qed.

Lemma loop_reading_frame (ts : list string) (a b c : list event) :
  silent a -> silent c -> loop_reading ts b -> loop_reading ts (a ++ b ++ c).
Proof.
  intros Ha Hc (D & N & K & Q).
  destruct (silent_frame a b c Ha Hc) as (F1 & F2 & F3 & F4 & F5).
  unfold loop_reading; rewrite F1, F2, F3, F4; repeat split; auto.
Qed.

(** The readings of a run whose first loop handed over [ts]. *)
Lemma crewai_flow_reading (v : variant) (st s1 : St W) (ts : list string)
      (t1 : list event) :
  read_tasks st = (Ret ts, s1, t1) ->
  let run := crewai_flow srv v st in
  loop_reading ts (trace_of run) /\
  (outcome_of run = Ret tt ->
   processed (trace_of run) = ts /\ notified (trace_of run) = ts).
Proof.
  intros Hr; pose proof (read_tasks_silent st) as Hs.
  cbn zeta; rewrite crewai_flow_run, Hr.
  rewrite Hr in Hs; unfold trace_of in Hs; cbn [snd] in Hs.
  destruct ts as [|t ts].
  - assert (S : silent (enter_line :: t1 ++ [Print "No tasks provided. Exiting."])).
    { apply (silent_app [enter_line]); [silence|].
      apply silent_app; [exact Hs | silence]. }
    unfold trace_of, outcome_of; cbn [fst snd].
    split; [apply silent_reading; exact S|].
    intros _; destruct S as (S1 & _ & _ & S4 & _); auto.
  - destruct (for_each_reading v (t :: ts) s1) as [L C]; cbn zeta in L, C.
    assert (Sa : silent (enter_line :: t1 ++ [initializing_line])).
    { apply (silent_app [enter_line]); [silence|].
      apply silent_app; [exact Hs | silence]. }
    destruct (for_each (t :: ts) (process_task srv v) s1) as [[[[]|e|] s2] t2];
      unfold trace_of, outcome_of in *; cbn [fst snd] in *.
    + rewrite frame_shape.
      assert (Sc : silent [reviewing_line]) by silence.
      split; [apply loop_reading_frame; assumption|].
      intros _; destruct (silent_frame _ t2 _ Sa Sc) as (F1 & _ & _ & F4 & _).
      rewrite F1, F4; apply C; reflexivity.
    + rewrite <- (app_nil_r t2), frame_shape.
      split; [apply loop_reading_frame; auto using silent_nil | discriminate].
    + rewrite <- (app_nil_r t2), frame_shape.
      split; [apply loop_reading_frame; auto using silent_nil | discriminate].
Qed.

(** The readings of a run whose first loop did not hand over a list. *)
Lemma crewai_flow_unread (v : variant) (st : St W) :
  (forall ts, outcome_of (read_tasks st) <> Ret ts) ->
  silent (trace_of (crewai_flow srv v st)).
Proof.
  intros Hn; pose proof (read_tasks_silent st) as Hs.
  rewrite crewai_flow_run.
  destruct (read_tasks st) as [[[ts|e|] s1] t1];
    unfold trace_of, outcome_of in *; cbn [fst snd] in *.
  - exfalso; exact (Hn ts eq_refl).
  - apply (silent_app [enter_line]); [silence | exact Hs].
  - apply (silent_app [enter_line]); [silence | exact Hs].
Qed.

End FlowFacts.

(** C3. [test_code] answers a string that contains "passed" whatever it is
    given; so in every run of [crewai_flow] each result handed to QA is
    deployed, the client is told about each task whose result reached QA
    (all the tasks taken up, when the run returns), and the line of the
    failing QA branch is never printed. *)
Theorem C3_qa_always_passes {W : Type} (srv : Agents.Services W)
        (v : Agents.variant) (st : St W) :
  (forall (code : string) (st' : St W),
      exists verdict,
        outcome_of (Agents.test_code code st') = Ret verdict
        /\ contains "passed" verdict = true) /\
  let run := Agents.crewai_flow srv v st in
  deployed (trace_of run) = qa_tested (trace_of run) /\
  notified (trace_of run)
  = firstn (List.length (qa_tested (trace_of run))) (processed (trace_of run)) /\
  (outcome_of run = Ret tt -> notified (trace_of run) = processed (trace_of run)) /\
  ~ In qa_failed_line (trace_of run).
Proof.
  split.
  - intros code st'; exists "Code or answer passed QA."; split; reflexivity.
  - cbn zeta.
    destruct (Agents.read_tasks st) as [[o s1] t1] eqn:R.
    destruct o as [ts|e|].
    + destruct (crewai_flow_reading srv v st s1 ts t1 R) as [(D & N & K & Q) C].
      repeat split; try assumption.
      intros Ho; destruct (C Ho) as [-> ->]; reflexivity.
    + assert (S : silent (trace_of (Agents.crewai_flow srv v st))).
      { apply crewai_flow_unread; intros ts; rewrite R; discriminate. }
      destruct (silent_reading [] _ S) as [(D & N & K & Q) E].
      repeat split; auto.
    + assert (S : silent (trace_of (Agents.crewai_flow srv v st))).
      { apply crewai_flow_unread; intros ts; rewrite R; discriminate. }
      destruct (silent_reading [] _ S) as [(D & N & K & Q) E].
      repeat split; auto.
Qed.

(** C5. When the first line read is the sentinel, [crewai_flow] prints
    "No tasks provided. Exiting." and returns: the run is the opening line,
    one prompt and that line, no service is called and the rest of the input
    stays unread. *)
Theorem C5_no_tasks_exit {W : Type} (srv : Agents.Services W) (v : Agents.variant)
        (w : W) (line : string) (rest : list input_item) :
  lower line = "done" ->
  Agents.crewai_flow srv v (mkSt w (Line line :: rest))
  = (Ret tt, mkSt w rest,
     [Print "Enter the tasks for the project (type 'done' to finish):";
      Prompt "> ";
      Print "No tasks provided. Exiting."]).
Proof.
  intros Hl; rewrite crewai_flow_run.
  unfold Agents.read_tasks, input_loop.
  rewrite (read_loop_run [] _ [] w line rest (Forall_nil _) Hl) by (cbn; lia).
  reflexivity.
Qed.

Lemma C5_done_first :
  lower "done" = "done" /\
  Agents.crewai_flow search_only_services Agents.WithGoogle
    (mkSt tt [Line "done"; Line "Who is Ada"])
  = (Ret tt, mkSt tt [Line "Who is Ada"],
     [Print "Enter the tasks for the project (type 'done' to finish):";
      Prompt "> ";
      Print "No tasks provided. Exiting."]).
Proof.
  split; [reflexivity|].
  apply (C5_no_tasks_exit search_only_services Agents.WithGoogle tt "done"
           [Line "Who is Ada"]).
  reflexivity.
Defined.

(** C10. [initialize_project] hands back the list it is given, so the loop
    of [crewai_flow] takes up the tasks entered before the sentinel, in the
    order of entry and each once: always a first part of them, and all of
    them when the run returns. *)
Theorem C10_tasks_in_order {W : Type} (srv : Agents.Services W) (v : Agents.variant)
        (w : W) (pre : list string) (line : string) (rest : list input_item) :
  Forall not_done pre -> lower line = "done" ->
  (forall (tasks : list string) (st : St W),
      outcome_of (Agents.initialize_project tasks st) = Ret tasks) /\
  let run := Agents.crewai_flow srv v (mkSt w (map Line pre ++ Line line :: rest)%list) in
  (exists k, processed (trace_of run) = firstn k pre) /\
  (outcome_of run = Ret tt -> processed (trace_of run) = pre).
Proof.
  intros Hpre Hl; split; [reflexivity|].
  assert (R : Agents.read_tasks (mkSt w (map Line pre ++ Line line :: rest)%list)
              = (Ret pre, mkSt w rest, repeat (Prompt "> ") (S (List.length pre)))).
  { unfold Agents.read_tasks, input_loop.
    rewrite (read_loop_run pre _ [] w line rest Hpre Hl); [reflexivity|].
    cbn [stdin]; rewrite length_app, length_map; cbn; lia. }
  destruct (crewai_flow_reading srv v _ _ _ _ R) as [(D & N & K & Q) C].
  split; [exact K | intros Ho; apply (C Ho)].
Qed.

(** ** The third script: loading the configuration *)

Lemma append_inv_head (p a b : string) : p ++ a = p ++ b -> a = b.
Proof.
  induction p as [|c p IH]; simpl; intros H; [exact H|].
  injection H as H; exact (IH H).
Qed.

Section ConfigFacts.
Import Ultimate.
Context {W : Type} (srv : Services W).

Lemma has_key_spec (entries : list (string * json)) (key : string) :
  existsb (fun kv => String.eqb (fst kv) key) entries = false <-> lacks entries key.
Proof.
  unfold lacks; induction entries as [|[k v] entries IH]; simpl.
  - split; [intros _ [] | reflexivity].
  - rewrite orb_false_iff, IH, String.eqb_neq; tauto.
Qed.

Lemma has_key_true (entries : list (string * json)) (key : string) :
  existsb (fun kv => String.eqb (fst kv) key) entries = true ->
  In key (map fst entries).
Proof.
  induction entries as [|[k v] entries IH]; simpl; [discriminate|].
  intros H; apply orb_true_iff in H as [H|H].
  - left; apply String.eqb_eq; exact H.
  - right; exact (IH H).
Qed.

Lemma load_config_missing (f : string) (st : St W) (w1 : W) :
  path_exists srv f (world st) = (Ret false, w1) ->
  load_config srv f st
  = (Raise (ConfigError (missing_file_message f)), mkSt w1 (stdin st),
     [Call "os.path.exists" f]).
Proof.
  intros He; unfold load_config.
  cbv [try_except bind call raise]; rewrite He; reflexivity.
Qed.

Lemma load_config_empty (f : string) (st : St W) (w1 w2 : W) (raw : string) :
  path_exists srv f (world st) = (Ret true, w1) ->
  read_file srv f w1 = (Ret raw, w2) ->
  strip raw = "" ->
  load_config srv f st
  = (Raise (ConfigError (empty_file_message f)), mkSt w2 (stdin st),
     [Call "os.path.exists" f; Call "open" f]).
Proof.
  intros He Hr Hs; unfold load_config.
  cbv [try_except bind call raise world stdin]; destruct st as [w i].
  cbn [world] in He; rewrite He; cbn [negb].
  rewrite Hr, Hs; reflexivity.
Qed.

Lemma load_config_invalid (f : string) (st : St W) (w1 w2 : W) (raw m : string) :
  path_exists srv f (world st) = (Ret true, w1) ->
  read_file srv f w1 = (Ret raw, w2) ->
  strip raw <> "" ->
  json_loads srv (strip raw) = Raise (JSONDecodeError m) ->
  load_config srv f st
  = (Raise (ConfigError (invalid_json_message m)), mkSt w2 (stdin st),
     [Call "os.path.exists" f; Call "open" f]).
Proof.
  intros He Hr Hs Hj; unfold load_config.
  cbv [try_except bind call raise lift world stdin]; destruct st as [w i].
  cbn [world] in He; rewrite He; cbn [negb].
  apply String.eqb_neq in Hs; rewrite Hr, Hs, Hj; reflexivity.
Qed.

Lemma load_config_missing_key (f : string) (st : St W) (w1 w2 : W) (raw : string)
      (entries : list (string * json)) :
  path_exists srv f (world st) = (Ret true, w1) ->
  read_file srv f w1 = (Ret raw, w2) ->
  strip raw <> "" ->
  json_loads srv (strip raw) = Ret (JDict entries) ->
  (exists key, In key required_keys /\ lacks entries key) ->
  exists key,
    In key required_keys /\ lacks entries key /\
    load_config srv f st
    = (Raise (ConfigError (missing_key_message key)), mkSt w2 (stdin st),
       [Call "os.path.exists" f; Call "open" f]).
Proof.
  intros He Hr Hs Hj Hk; unfold load_config.
  cbv [try_except bind call raise lift ret for_each required_keys require_key
         py_in world stdin].
  destruct st as [w i].
  cbn [world] in He; rewrite He; cbn [negb].
  apply String.eqb_neq in Hs; rewrite Hr, Hs, Hj.
  destruct (existsb (fun kv => String.eqb (fst kv) "OPENAI_API_KEY") entries) eqn:K1;
    [|exists "OPENAI_API_KEY"; apply has_key_spec in K1;
      repeat split; simpl; auto].
  destruct (existsb (fun kv => String.eqb (fst kv) "GOOGLE_API_KEY") entries) eqn:K2;
    [|exists "GOOGLE_API_KEY"; apply has_key_spec in K2;
      repeat split; simpl; auto].
  destruct (existsb (fun kv => String.eqb (fst kv) "GOOGLE_CSE_ID") entries) eqn:K3;
    [|exists "GOOGLE_CSE_ID"; apply has_key_spec in K3;
      repeat split; simpl; auto].
  exfalso; destruct Hk as (key & Hin & Hl).
  apply has_key_spec in Hl.
  cbn in Hin; destruct Hin as [<-|[<-|[<-|[]]]]; congruence.
Qed.

Lemma require_key_Ret (config : json) (key : string) (s s' : St W) (t : list event) :
  require_key config key s = (Ret tt, s', t) -> py_in key config = Ret true.
Proof.
  intros K; apply bind_Ret_inv in K as (p & sp & tp & tp' & Kl & K & _).
  injection Kl as Kl _ _; destruct p; [exact Kl | discriminate K].
Qed.

(** Whenever [load_config] returns, the file was there, its stripped text
    was not empty and parsed to the value returned, and each required key is
    [in] that value. *)
Lemma load_config_returns (f : string) (st : St W) (config : json) :
  outcome_of (load_config srv f st) = Ret config ->
  exists w1 raw w2,
    path_exists srv f (world st) = (Ret true, w1) /\
    read_file srv f w1 = (Ret raw, w2) /\
    strip raw <> "" /\
    json_loads srv (strip raw) = Ret config /\
    forall key, In key required_keys -> py_in key config = Ret true.
Proof.
  unfold load_config, outcome_of, try_except.
  match goal with |- context [match ?b st with _ => _ end] =>
    destruct (b st) as [[o s1] t1] eqn:B end.
  destruct o as [c|e|]; cbn [fst];
    [| destruct (is_Exception e); [destruct e|]; discriminate | discriminate].
  intros H; injection H as ->.
  apply bind_Ret_inv in B as (found & sa & ta & ta' & Hc & B & _).
  apply call_Ret_inv in Hc as (w1 & He & -> & _).
  destruct found; cbn [negb] in B; [|discriminate B].
  apply bind_Ret_inv in B as (raw & sb & tb & tb' & Hc & B & _).
  apply call_Ret_inv in Hc as (w2 & Hr & -> & _); cbn [world stdin] in *.
  destruct (String.eqb (strip raw) "") eqn:Hs; [discriminate B|].
  apply String.eqb_neq in Hs.
  apply bind_Ret_inv in B as (c & sc & tc & tc' & Hj & B & _).
  injection Hj as Hj _ _.
  apply bind_Ret_inv in B as ([] & sd & td & td' & Hk & B & _).
  injection B as <- _ _.
  exists w1, raw, w2; repeat split; auto.
  cbn [for_each required_keys] in Hk.
  apply bind_Ret_inv in Hk as ([] & s2 & t2 & t2' & K1 & Hk & _).
  apply bind_Ret_inv in Hk as ([] & s3 & t3 & t3' & K2 & Hk & _).
  apply bind_Ret_inv in Hk as ([] & s4 & t4 & t4' & K3 & _ & _).
  intros key [<-|[<-|[<-|[]]]]; eapply require_key_Ret; eassumption.
Qed.

Lemma emits_lift {A} (P : event -> Prop) (o : outcome A) : emits P (@lift W A o).
Proof. intros st; constructor. Qed.

(** [load_config] touches the file system only. *)
Lemma load_config_trace (f : string) :
  emits (fun ev => ev = Call "os.path.exists" f \/ ev = Call "open" f)
        (load_config srv f).
Proof.
  unfold load_config; apply emits_try.
  - apply emits_bind; [apply emits_call; auto|].
    intros found; destruct (negb found); [apply emits_raise|].
    apply emits_bind; [apply emits_call; auto|].
    intros raw; cbn zeta.
    destruct (String.eqb (strip raw) ""); [apply emits_raise|].
    apply emits_bind; [apply emits_lift|].
    intros config; apply emits_bind; [|intros _; apply emits_ret].
    apply emits_for_each; intros key; unfold require_key.
    apply emits_bind; [apply emits_lift|].
    intros present; destruct (negb present); [apply emits_raise | apply emits_ret].
  - intros e; destruct e; apply emits_raise.
Qed.

(** A configuration error ends the entry point with its message logged. *)
Lemma entry_point_config_error (st : St W) (m : string) :
  outcome_of (load_config srv "config.json" st) = Raise (ConfigError m) ->
  entry_point srv st
  = (Ret tt, final_of (load_config srv "config.json" st),
     trace_of (load_config srv "config.json" st) ++ [Log ERROR m])%list.
Proof.
  unfold entry_point, try_except, outcome_of, final_of, trace_of.
  unfold bind at 1.
  destruct (load_config srv "config.json" st) as [[o s] t]; cbn [fst snd].
  intros ->; reflexivity.
Qed.

End ConfigFacts.

Lemma config_messages_distinct (f detail key : string) :
  missing_file_message f <> empty_file_message f /\
  missing_file_message f <> invalid_json_message detail /\
  missing_file_message f <> missing_key_message key /\
  empty_file_message f <> invalid_json_message detail /\
  empty_file_message f <> missing_key_message key /\
  invalid_json_message detail <> missing_key_message key.
Proof.
  unfold missing_file_message, empty_file_message, invalid_json_message,
    missing_key_message.
  repeat split; try (simpl; discriminate).
  intros H.
  apply (append_inv_head "Failed to load configuration: Configuration file '") in H.
  apply (append_inv_head f) in H; discriminate H.
Qed.

(** C4. [load_config] raises [ConfigError] when the file is missing, when its
    stripped text is empty, when the text is not valid JSON and when the
    parsed object lacks one of the three required keys; the four messages
    differ from each other; it returns the parsed value only when none of
    these holds; and a configuration error ends the entry point, logged,
    before the Google service is built. *)
Theorem C4_config_errors {W : Type} (srv : Ultimate.Services W) (f : string)
        (st : St W) :
  let run := Ultimate.load_config srv f st in
  (forall w1,
      Ultimate.path_exists srv f (world st) = (Ret false, w1) ->
      outcome_of run = Raise (ConfigError (missing_file_message f))) /\
  (forall w1 raw w2,
      Ultimate.path_exists srv f (world st) = (Ret true, w1) ->
      Ultimate.read_file srv f w1 = (Ret raw, w2) ->
      (strip raw = "" ->
       outcome_of run = Raise (ConfigError (empty_file_message f))) /\
      (forall detail,
          strip raw <> "" ->
          Ultimate.json_loads srv (strip raw) = Raise (JSONDecodeError detail) ->
          outcome_of run = Raise (ConfigError (invalid_json_message detail))) /\
      (forall entries,
          strip raw <> "" ->
          Ultimate.json_loads srv (strip raw) = Ret (Ultimate.JDict entries) ->
          (exists key, In key Ultimate.required_keys /\ lacks entries key) ->
          exists key,
            In key Ultimate.required_keys /\ lacks entries key /\
            outcome_of run = Raise (ConfigError (missing_key_message key)))) /\
  (forall detail key,
      missing_file_message f <> empty_file_message f /\
      missing_file_message f <> invalid_json_message detail /\
      missing_file_message f <> missing_key_message key /\
      empty_file_message f <> invalid_json_message detail /\
      empty_file_message f <> missing_key_message key /\
      invalid_json_message detail <> missing_key_message key) /\
  (forall config,
      outcome_of run = Ret config ->
      exists w1 raw w2,
        Ultimate.path_exists srv f (world st) = (Ret true, w1) /\
        Ultimate.read_file srv f w1 = (Ret raw, w2) /\
        strip raw <> "" /\
        Ultimate.json_loads srv (strip raw) = Ret config /\
        forall entries,
          config = Ultimate.JDict entries ->
          forall key, In key Ultimate.required_keys -> In key (map fst entries)) /\
  (forall m,
      outcome_of (Ultimate.load_config srv "config.json" st) = Raise (ConfigError m) ->
      outcome_of (Ultimate.entry_point srv st) = Ret tt /\
      trace_of (Ultimate.entry_point srv st)
      = (trace_of (Ultimate.load_config srv "config.json" st) ++ [Log ERROR m])%list /\
      ~ api_initialized (trace_of (Ultimate.entry_point srv st))).
Proof.
  cbn zeta; repeat split.
  - intros w1 He; rewrite (load_config_missing srv f st w1 He); reflexivity.
  - intros Hs; rewrite (load_config_empty srv f st w1 w2 raw H H0 Hs); reflexivity.
  - intros detail Hs Hj.
    rewrite (load_config_invalid srv f st w1 w2 raw detail H H0 Hs Hj); reflexivity.
  - intros entries Hs Hj Hk.
    destruct (load_config_missing_key srv f st w1 w2 raw entries H H0 Hs Hj Hk)
      as (key & Hin & Hl & Hrun).
    exists key; rewrite Hrun; auto.
  - apply (config_messages_distinct f detail key).
  - apply (config_messages_distinct f detail key).
  - apply (config_messages_distinct f detail key).
  - apply (config_messages_distinct f detail key).
  - apply (config_messages_distinct f detail key).
  - apply (config_messages_distinct f detail key).
  - intros config Hc.
    destruct (load_config_returns srv f st config Hc) as (w1 & raw & w2 & A & B & C & D & E).
    exists w1, raw, w2; repeat split; auto.
    intros entries -> key Hin; specialize (E key Hin).
    injection E as E; apply has_key_true; exact E.
  - rewrite (entry_point_config_error srv st m H); reflexivity.
  - rewrite (entry_point_config_error srv st m H); reflexivity.
  - rewrite (entry_point_config_error srv st m H).
    unfold api_initialized, trace_of at 1; cbn [snd].
    intros [arg Hin]; apply in_app_iff in Hin as [Hin|[Hin|[]]]; [|discriminate Hin].
    pose proof (load_config_trace srv "config.json" st) as Ht.
    rewrite Forall_forall in Ht; destruct (Ht _ Hin) as [E|E]; discriminate E.
Qed.

(** ** The third script: failures of the services *)

Section FailureFacts.
Import Ultimate.
Context {W : Type} (srv : Services W).

Lemma search_google_failure (query : string) (service : handle) (st : St W)
      (e : exn) (w1 : W) :
  cse_list_execute srv service query (world st) = (Raise e, w1) ->
  api_failure e ->
  search_google srv query service st
  = (Ret (JList []), mkSt w1 (stdin st),
     [Log INFO ("Searching Google for: " ++ query);
      Call "customsearch.cse.list" query;
      Log ERROR ("Google search failed: " ++ str_of_exn e)]).
Proof.
  intros Hc He; unfold search_google.
  cbv [try_except bind log emit call ret world stdin]; destruct st as [w i].
  cbn [world] in Hc; rewrite Hc, He; reflexivity.
Qed.

Lemma ask_chatgpt_failure (question context : string) (st : St W) (e : exn) (w1 : W) :
  chat_completion srv ("Context: " ++ context ++ nl ++ "Question: " ++ question)
                  (world st) = (Raise e, w1) ->
  api_failure e ->
  ask_chatgpt srv question context st
  = (Ret "Error generating response from ChatGPT.", mkSt w1 (stdin st),
     [Log INFO ("Asking ChatGPT: " ++ question);
      Call "openai.ChatCompletion.create" question;
      Log ERROR ("ChatGPT request failed: " ++ str_of_exn e)]).
Proof.
  intros Hc He; unfold ask_chatgpt.
  cbv [try_except bind log emit call ret world stdin]; destruct st as [w i].
  cbn [world] in Hc; rewrite Hc, He; reflexivity.
Qed.

(** A failure of the first summary call that is not a disambiguation. *)
Lemma search_wikipedia_failure (query : string) (st : St W) (e : exn) (w1 : W) :
  wikipedia_summary srv query (world st) = (Raise e, w1) ->
  api_failure e ->
  (forall m options, e <> DisambiguationError m options) ->
  exists fallback lvl msg,
    search_wikipedia srv query st
    = (Ret fallback, mkSt w1 (stdin st),
       [Log INFO ("Searching Wikipedia for: " ++ query);
        Call "wikipedia.summary" query; Log lvl msg])
    /\ (fallback = "No relevant Wikipedia page found."
        \/ fallback = "Error fetching Wikipedia data.").
Proof.
  intros Hc He Hd; unfold search_wikipedia.
  cbv [try_except bind log emit call ret world stdin]; destruct st as [w i].
  cbn [world] in Hc; rewrite Hc, He.
  destruct e; try (eexists _, _, _; split; [reflexivity | auto]).
  exfalso; exact (Hd _ _ eq_refl).
Qed.

Lemma catches_all (e : exn) : is_KeyboardInterrupt e || is_Exception e = true.
Proof. destruct e; reflexivity. Qed.

Lemma main_round_never_raises (crew : handle) (u : unit) :
  never_raises (main_round srv crew u).
Proof.
  unfold main_round; apply never_raises_try; [exact catches_all|].
  intros e; destruct e;
    (apply never_raises_bind; [apply never_raises_emit | intros; apply never_raises_ret]).
Qed.

Lemma main_never_raises (crew : handle) : never_raises (main srv crew).
Proof.
  unfold main; apply never_raises_bind; [apply never_raises_emit|].
  intros _ st e; unfold input_loop.
  apply never_raises_while_true; intros s; apply main_round_never_raises.
Qed.

Lemma entry_handler_never_raises (e : exn) :
  never_raises (W := W)
    match e with
    | ConfigError _ => log ERROR (str_of_exn e)
    | APIError _ => log ERROR (str_of_exn e)
    | _ => log ERROR ("An unexpected error occurred: " ++ str_of_exn e)
    end.
Proof. destruct e; apply never_raises_emit. Qed.

(** Only what is not an [Exception] leaves the entry point. *)
Lemma entry_point_escapes (st : St W) (e : exn) :
  outcome_of (entry_point srv st) = Raise e -> is_Exception e = false.
Proof.
  unfold entry_point; apply try_except_escapes.
  exact entry_handler_never_raises.
Qed.

Lemma entry_point_startup (st : St W) :
  entry_point srv st
  = try_except (bind (startup srv) (main srv)) is_Exception
      (fun e =>
         match e with
         | ConfigError _ => log ERROR (str_of_exn e)
         | APIError _ => log ERROR (str_of_exn e)
         | _ => log ERROR ("An unexpected error occurred: " ++ str_of_exn e)
         end) st.
Proof.
  unfold entry_point, try_except.
  assert (E : forall s,
             bind (startup srv) (main srv) s
             = (config <- load_config srv "config.json" ;;
                google_service <- initialize_apis srv config ;;
                researcher <- create_researcher_agent srv ;;
                analyzer <- create_analyzer_agent srv ;;
                crew <- create_crew srv researcher analyzer ;;
                main srv crew) s).
  { intros s; unfold startup.
    rewrite bind_assoc; apply bind_ext; intros config s1.
    rewrite bind_assoc; apply bind_ext; intros service s2.
    rewrite bind_assoc; apply bind_ext; intros researcher s3.
    rewrite bind_assoc; reflexivity. }
  rewrite E; reflexivity.
Qed.

(** A failure during the start ends the entry point with one more line, an
    error, in the log. *)
Lemma startup_failure_logged (st : St W) (e : exn) :
  outcome_of (startup srv st) = Raise e -> api_failure e ->
  outcome_of (entry_point srv st) = Ret tt /\
  exists msg,
    trace_of (entry_point srv st) = (trace_of (startup srv st) ++ [Log ERROR msg])%list
    /\ (msg = str_of_exn e \/ msg = "An unexpected error occurred: " ++ str_of_exn e).
Proof.
  intros Hs He; rewrite entry_point_startup.
  unfold try_except, bind, outcome_of, trace_of in *.
  destruct (startup srv st) as [[o s1] t1]; cbn [fst snd] in *; subst o.
  rewrite He.
  destruct e; cbn; (split; [reflexivity | eexists; split; [reflexivity | auto]]).
Qed.

(** *** The loop of [main] *)

(** One round on a line of input, by the four branches of the body. *)
Lemma main_round_line (crew : handle) (w : W) (raw : string) (r : list input_item) :
  main_round srv crew tt (mkSt w (Line raw :: r))
  = let question := strip raw in
    if String.eqb (lower question) "exit" then
      (Ret (inr tt), mkSt w r, [ask_prompt; Log INFO "Exiting the program."])
    else if String.eqb (lower question) "help" then
      (Ret (inl tt), mkSt w r,
       [ask_prompt; Print (nl ++ "Help:");
        Print "1. Type your question to get an answer.";
        Print "2. Type 'exit' to quit the program."])
    else if String.eqb question "" then
      (Ret (inl tt), mkSt w r, [ask_prompt; Log WARNING "Please enter a valid question."])
    else
      let head := [ask_prompt; Log INFO ("Processing question: " ++ question);
                   Call "crew.kickoff" question] in
      match kickoff srv crew question w with
      | (Ret results, w1) =>
          (Ret (inl tt), mkSt w1 r, head ++ [Print (nl ++ "Answer: " ++ results ++ nl)])
      | (Raise e, w1) =>
          if is_KeyboardInterrupt e
          then (Ret (inr tt), mkSt w1 r, head ++ [Log INFO (nl ++ "Exiting the program.")])
          else (Ret (inl tt), mkSt w1 r,
                head ++ [Log ERROR ("An error occurred: " ++ str_of_exn e)])
      | (Diverge, w1) => (Diverge, mkSt w1 r, head)
      end%list.
Proof.
  unfold main_round, try_except, bind at 1, input; cbn [stdin world]; cbn zeta.
  destruct (String.eqb (lower (strip raw)) "exit"); [reflexivity|].
  destruct (String.eqb (lower (strip raw)) "help"); [reflexivity|].
  destruct (String.eqb (strip raw) ""); [reflexivity|].
  cbv [bind log emit call print ret world stdin].
  destruct (kickoff srv crew (strip raw) w) as [[results|e|] w1]; try reflexivity.
  rewrite catches_all; destruct e; reflexivity.
Qed.

Lemma main_round_eof (crew : handle) (w : W) :
  main_round srv crew tt (mkSt w [])
  = (Ret (inl tt), mkSt w [],
     [ask_prompt; Log ERROR "An error occurred: EOF when reading a line"]).
Proof. reflexivity. Qed.

Lemma main_round_exit (crew : handle) (w : W) (raw : string) (r : list input_item) :
  lower (strip raw) = "exit" ->
  main_round srv crew tt (mkSt w (Line raw :: r))
  = (Ret (inr tt), mkSt w r, [ask_prompt; Log INFO "Exiting the program."]).
Proof. intros H; rewrite main_round_line; cbn zeta; rewrite H; reflexivity. Qed.

(** With a crew that answers or fails, a line that is not the sentinel
    sends the loop round again. *)
Lemma main_round_continues (crew : handle) (w : W) (raw : string)
      (r : list input_item) :
  crew_answers srv -> not_exit raw ->
  exists w1 t, main_round srv crew tt (mkSt w (Line raw :: r)) = (Ret (inl tt), mkSt w1 r, t).
Proof.
  intros Hc Hn; rewrite main_round_line; cbn zeta.
  apply String.eqb_neq in Hn; rewrite Hn.
  destruct (String.eqb (lower (strip raw)) "help"); [eexists _, _; reflexivity|].
  destruct (String.eqb (strip raw) ""); [eexists _, _; reflexivity|].
  specialize (Hc crew (strip raw) w).
  destruct (kickoff srv crew (strip raw) w) as [[results|e|] w1]; cbn [fst] in Hc.
  - eexists _, _; reflexivity.
  - destruct e; try discriminate Hc; eexists _, _; reflexivity.
  - contradiction.
Qed.

(** The loop of [main] ends at the first line that is "exit" once stripped
    and lowercased, and leaves the lines after it unread. *)
Lemma main_loop_exit (crew : handle) (pre : list string) (fuel : nat) (w : W)
      (line : string) (rest : list input_item) :
  crew_answers srv -> Forall not_exit pre -> lower (strip line) = "exit" ->
  List.length pre < fuel ->
  exists w' t,
    while_true fuel (main_round srv crew) tt
               (mkSt w (map Line pre ++ Line line :: rest)%list)
    = (Ret tt, mkSt w' rest, t).
Proof.
  intros Hc Hpre Hl; revert fuel w.
  induction Hpre as [|p pre Hp _ IH]; intros fuel w Hf.
  - destruct fuel as [|n]; [inversion Hf|].
    cbn [while_true map app]; unfold bind at 1.
    rewrite (main_round_exit crew w line rest Hl).
    eexists _, _; reflexivity.
  - destruct fuel as [|n]; [inversion Hf|].
    cbn [while_true map app]; unfold bind at 1.
    destruct (main_round_continues crew w p (map Line pre ++ Line line :: rest)%list Hc Hp)
      as (w1 & t1 & ->).
    destruct (IH n w1) as (w' & t & ->); [cbn in Hf; lia|].
    eexists _, _; reflexivity.
Qed.

(** Without such a line, and without Ctrl-C, the loop does not end: at the
    end of the stream every round logs the [EOFError] and goes round again. *)
Lemma main_loop_eof (crew : handle) (lines : list string) (fuel : nat) (w : W) :
  crew_answers srv -> Forall not_exit lines ->
  outcome_of (while_true fuel (main_round srv crew) tt (mkSt w (map Line lines)))
  = Diverge.
Proof.
  intros Hc Hl; revert lines w Hl; induction fuel as [|n IH]; intros lines w Hl;
    [reflexivity|].
  cbn [while_true]; unfold bind at 1.
  destruct Hl as [|p lines Hp Hl]; cbn [map].
  - rewrite main_round_eof.
    specialize (IH [] w (Forall_nil _)); cbn [map] in IH.
    unfold outcome_of in *.
    destruct (while_true n (main_round srv crew) tt (mkSt w [])) as [[o s] t].
    exact IH.
  - destruct (main_round_continues crew w p (map Line lines) Hc Hp) as (w1 & t1 & ->).
    specialize (IH lines w1 Hl); unfold outcome_of in *.
    destruct (while_true n (main_round srv crew) tt (mkSt w1 (map Line lines)))
      as [[o s] t].
    exact IH.
Qed.

(** A failure of the crew is logged and the loop goes round again. *)
Lemma main_round_api_failure (crew : handle) (w w1 : W) (raw : string)
      (r : list input_item) (e : exn) :
  not_exit raw -> lower (strip raw) <> "help" -> strip raw <> "" ->
  kickoff srv crew (strip raw) w = (Raise e, w1) -> api_failure e ->
  main_round srv crew tt (mkSt w (Line raw :: r))
  = (Ret (inl tt), mkSt w1 r,
     [ask_prompt; Log INFO ("Processing question: " ++ strip raw);
      Call "crew.kickoff" (strip raw);
      Log ERROR ("An error occurred: " ++ str_of_exn e)]).
Proof.
  intros Hx Hh He Hk Ha; rewrite main_round_line; cbn zeta.
  apply String.eqb_neq in Hx, Hh, He; rewrite Hx, Hh, He, Hk.
  destruct e; try discriminate Ha; reflexivity.
Qed.

Lemma main_run_exit (crew : handle) (pre : list string) (w : W)
      (line : string) (rest : list input_item) :
  crew_answers srv -> Forall not_exit pre -> lower (strip line) = "exit" ->
  let run := main srv crew (mkSt w (map Line pre ++ Line line :: rest)%list) in
  outcome_of run = Ret tt /\ stdin (final_of run) = rest.
Proof.
  intros Hc Hpre Hl; cbn zeta.
  unfold main, bind, log, emit, input_loop; cbn [stdin].
  destruct (main_loop_exit crew pre
              (S (List.length (map Line pre ++ Line line :: rest)%list)) w line rest
              Hc Hpre Hl) as (w' & t & ->).
  - rewrite length_app, length_map; cbn; lia.
  - split; reflexivity.
Qed.

Lemma main_run_eof (crew : handle) (lines : list string) (w : W) :
  crew_answers srv -> Forall not_exit lines ->
  outcome_of (main srv crew (mkSt w (map Line lines))) = Diverge.
Proof.
  intros Hc Hl; pose proof (main_loop_eof crew lines
                              (S (List.length (map Line lines))) w Hc Hl) as H.
  unfold main, bind, log, emit, input_loop, outcome_of in *; cbn [stdin].
  destruct (while_true _ _ _ _) as [[o s] t]; cbn [fst] in *; subst o; reflexivity.
Qed.

(** The sentinel is never handed to the crew. *)
Lemma main_never_asks_exit (crew : handle) :
  emits (fun ev => forall q, ev = Call "crew.kickoff" q -> lower q <> "exit")
        (main srv crew).
Proof.
  unfold main; apply emits_bind; [apply emits_emit; discriminate|].
  intros _; apply emits_input_loop; intros u.
  unfold main_round; apply emits_try.
  - apply emits_bind; [apply emits_input; discriminate|].
    intros raw; cbn zeta.
    destruct (String.eqb (lower (strip raw)) "exit") eqn:E.
    { apply emits_bind; [apply emits_emit; discriminate | intros; apply emits_ret]. }
    destruct (String.eqb (lower (strip raw)) "help").
    { repeat (apply emits_bind; [apply emits_emit; discriminate | intros]).
      apply emits_ret. }
    destruct (String.eqb (strip raw) "").
    { apply emits_bind; [apply emits_emit; discriminate | intros; apply emits_ret]. }
    apply emits_bind; [apply emits_emit; discriminate | intros _].
    apply emits_bind.
    + apply emits_call; intros q Hq; injection Hq as <-.
      apply String.eqb_neq; exact E.
    + intros results.
      apply emits_bind; [apply emits_emit; discriminate | intros; apply emits_ret].
  - intros e; destruct e;
      (apply emits_bind; [apply emits_emit; discriminate | intros; apply emits_ret]).
Qed.

End FailureFacts.

(** C7, as the code has it.  The loop that reads the input ends at the first
    line that is the sentinel once lowercased ("done", hand-rolled scripts)
    or once stripped and lowercased ("exit", third script).  In the
    hand-rolled scripts the list handed over is what was entered before that
    line, the line itself is not in it and what follows stays unread; a
    list is handed over only in this way, and without such a line the last
    [input] raises at the end of the stream.  In the third script, with a
    crew that answers or fails, the loop returns at that line and does not
    return without one; Ctrl-C at the prompt also leaves the loop; the
    sentinel is never handed to the crew. *)
Theorem C7_sentinel_ends_input {W : Type} (srv : Ultimate.Services W)
        (crew : Ultimate.handle) :
  (forall (w : W) pre line rest,
      Forall not_done pre -> lower line = "done" ->
      Agents.read_tasks (mkSt w (map Line pre ++ Line line :: rest)%list)
      = (Ret pre, mkSt w rest, repeat (Prompt "> ") (S (List.length pre)))) /\
  (forall (st st' : St W) tasks tr,
      Agents.read_tasks st = (Ret tasks, st', tr) ->
      exists l,
        stdin st = (map Line tasks ++ Line l :: stdin st')%list
        /\ lower l = "done" /\ Forall not_done tasks) /\
  (forall (w : W) lines,
      Forall not_done lines ->
      outcome_of (Agents.read_tasks (mkSt w (map Line lines))) = Raise EOFError) /\
  (forall (w : W) pre line rest,
      crew_answers srv -> Forall not_exit pre -> lower (strip line) = "exit" ->
      let run := Ultimate.main srv crew (mkSt w (map Line pre ++ Line line :: rest)%list) in
      outcome_of run = Ret tt /\ stdin (final_of run) = rest) /\
  (forall (w : W) lines,
      crew_answers srv -> Forall not_exit lines ->
      outcome_of (Ultimate.main srv crew (mkSt w (map Line lines))) = Diverge) /\
  (forall (w : W) rest,
      Ultimate.main_round srv crew tt (mkSt w (CtrlC :: rest))
      = (Ret (inr tt), mkSt w rest,
         [ask_prompt; Log INFO (nl ++ "Exiting the program.")])) /\
  (forall st,
      Forall (fun ev => forall q, ev = Call "crew.kickoff" q -> lower q <> "exit")
             (trace_of (Ultimate.main srv crew st))).
Proof.
  split; [|split; [|split; [|split; [|split; [|split]]]]].
  - intros w pre line rest Hpre Hl; unfold Agents.read_tasks, input_loop.
    rewrite (read_loop_run pre _ [] w line rest Hpre Hl); [reflexivity|].
    cbn [stdin]; rewrite length_app, length_map; cbn; lia.
  - intros st st' tasks tr H.
    destruct (read_loop_returns _ _ _ _ _ _ H) as (p & l & -> & Hin & Hl & Hp & _).
    exists l; auto.
  - intros w lines Hl; unfold Agents.read_tasks, input_loop.
    rewrite (read_loop_eof lines _ [] w Hl); [reflexivity|].
    cbn [stdin]; rewrite length_map; lia.
  - intros w pre line rest Hc Hpre Hl.
    exact (main_run_exit srv crew pre w line rest Hc Hpre Hl).
  - intros w lines Hc Hl; exact (main_run_eof srv crew lines w Hc Hl).
  - reflexivity.
  - intros st; apply main_never_asks_exit.
Qed.

(** C7 as first stated does not hold: "DONE" is not the string "done", yet
    the loop ends at it, and neither it nor the line after it is collected. *)
Lemma C7_uppercase_done_ends_loop :
  "DONE" <> "done" /\
  Agents.read_tasks (mkSt tt [Line "DONE"; Line "deploy the site"; Line "done"])
  = (Ret [], mkSt tt [Line "deploy the site"; Line "done"], [Prompt "> "]).
Proof. split; [discriminate | reflexivity]. Qed.

(** C8, as the code has it.  [search_google] and [ask_chatgpt] turn a failure
    of their call into a logged error and a fallback value, [search_wikipedia]
    does so for a failure of its first call that is not a disambiguation;
    a failure of the crew inside the loop of [main] is logged and the loop
    goes on; [main] never ends with an exception, and nothing that is an
    [Exception] leaves the entry point; a failure during the start, whatever
    its class, ends the entry point with an error in the log. *)
Theorem C8_failures_contained {W : Type} (srv : Ultimate.Services W) (st : St W) :
  (forall query service e w1,
      Ultimate.cse_list_execute srv service query (world st) = (Raise e, w1) ->
      api_failure e ->
      Ultimate.search_google srv query service st
      = (Ret (Ultimate.JList []), mkSt w1 (stdin st),
         [Log INFO ("Searching Google for: " ++ query);
          Call "customsearch.cse.list" query;
          Log ERROR ("Google search failed: " ++ str_of_exn e)])) /\
  (forall query e w1,
      Ultimate.wikipedia_summary srv query (world st) = (Raise e, w1) ->
      api_failure e ->
      (forall m options, e <> DisambiguationError m options) ->
      exists fallback lvl msg,
        Ultimate.search_wikipedia srv query st
        = (Ret fallback, mkSt w1 (stdin st),
           [Log INFO ("Searching Wikipedia for: " ++ query);
            Call "wikipedia.summary" query; Log lvl msg])
        /\ (fallback = "No relevant Wikipedia page found."
            \/ fallback = "Error fetching Wikipedia data.")) /\
  (forall question context e w1,
      Ultimate.chat_completion srv
        ("Context: " ++ context ++ nl ++ "Question: " ++ question) (world st)
      = (Raise e, w1) ->
      api_failure e ->
      Ultimate.ask_chatgpt srv question context st
      = (Ret "Error generating response from ChatGPT.", mkSt w1 (stdin st),
         [Log INFO ("Asking ChatGPT: " ++ question);
          Call "openai.ChatCompletion.create" question;
          Log ERROR ("ChatGPT request failed: " ++ str_of_exn e)])) /\
  (forall crew raw r e w1,
      not_exit raw -> lower (strip raw) <> "help" -> strip raw <> "" ->
      Ultimate.kickoff srv crew (strip raw) (world st) = (Raise e, w1) ->
      api_failure e ->
      Ultimate.main_round srv crew tt (mkSt (world st) (Line raw :: r))
      = (Ret (inl tt), mkSt w1 r,
         [ask_prompt; Log INFO ("Processing question: " ++ strip raw);
          Call "crew.kickoff" (strip raw);
          Log ERROR ("An error occurred: " ++ str_of_exn e)])) /\
  (forall crew e, outcome_of (Ultimate.main srv crew st) <> Raise e) /\
  (forall e, outcome_of (Ultimate.entry_point srv st) = Raise e -> ~ api_failure e) /\
  (forall e,
      outcome_of (startup srv st) = Raise e -> api_failure e ->
      outcome_of (Ultimate.entry_point srv st) = Ret tt /\
      exists msg,
        trace_of (Ultimate.entry_point srv st)
        = (trace_of (startup srv st) ++ [Log ERROR msg])%list
        /\ (msg = str_of_exn e
            \/ msg = "An unexpected error occurred: " ++ str_of_exn e)).
Proof.
  split; [|split; [|split; [|split; [|split; [|split]]]]].
  - intros; apply search_google_failure; assumption.
  - intros query e w1 Hc Ha Hd; exact (search_wikipedia_failure srv query st e w1 Hc Ha Hd).
  - intros; apply ask_chatgpt_failure; assumption.
  - intros; apply main_round_api_failure; assumption.
  - intros crew e; apply main_never_raises.
  - intros e H Ha; apply entry_point_escapes in H.
    unfold api_failure in Ha; congruence.
  - intros e Hs Ha; exact (startup_failure_logged srv st e Hs Ha).
Qed.

(** C8 as first stated does not hold.  A failure of the second summary call,
    made after a disambiguation, leaves [search_wikipedia] and
    [research_task] as an exception; and the entry point also ends during
    the start on an error that is neither a configuration error nor an
    error of [initialize_apis]. *)
Lemma C8_failures_escape :
  api_failure no_page_error /\
  outcome_of (Ultimate.search_wikipedia ambiguous_services "Mercury" no_input)
  = Raise no_page_error /\
  outcome_of (Ultimate.research_task ambiguous_services "Mercury" 0 no_input)
  = Raise no_page_error /\
  outcome_of (startup agent_fails_services no_input) = Raise (OtherError "agent rejected") /\
  Ultimate.entry_point agent_fails_services no_input
  = (Ret tt, no_input,
     [Call "os.path.exists" "config.json"; Call "open" "config.json";
      Call "googleapiclient.discovery.build" "customsearch";
      Log INFO "APIs initialized successfully.";
      Call "crewai.Agent" "Researcher";
      Log ERROR "An unexpected error occurred: agent rejected"]).
Proof. repeat split; vm_compute; reflexivity. Qed.

(** ** The statements at concrete runs *)

Lemma C3_two_tasks_notified :
  outcome_of (Agents.crewai_flow search_only_services Agents.WithGoogle
                (mkSt tt [Line "Write a function to sort a list"; Line "Who is Ada";
                          Line "done"]))
  = Ret tt /\
  notified (trace_of (Agents.crewai_flow search_only_services Agents.WithGoogle
                        (mkSt tt [Line "Write a function to sort a list";
                                  Line "Who is Ada"; Line "done"])))
  = ["Write a function to sort a list"; "Who is Ada"].
Proof.
  split; [reflexivity|].
  destruct (C3_qa_always_passes search_only_services Agents.WithGoogle
              (mkSt tt [Line "Write a function to sort a list"; Line "Who is Ada";
                        Line "done"])) as (_ & _ & _ & H & _).
  rewrite (H eq_refl); reflexivity.
Defined.

Lemma C10_two_tasks_in_order :
  Forall not_done ["Write a function to sort a list"; "Who is Ada"] /\
  lower "Done" = "done" /\
  processed (trace_of (Agents.crewai_flow search_only_services Agents.WithGoogle
                         (mkSt tt [Line "Write a function to sort a list";
                                   Line "Who is Ada"; Line "Done"; Line "later"])))
  = ["Write a function to sort a list"; "Who is Ada"].
Proof.
  assert (Hpre : Forall not_done ["Write a function to sort a list"; "Who is Ada"]).
  { repeat constructor; unfold not_done; simpl; discriminate. }
  split; [exact Hpre | split; [reflexivity|]].
  destruct (C10_tasks_in_order search_only_services Agents.WithGoogle tt
              ["Write a function to sort a list"; "Who is Ada"] "Done" [Line "later"]
              Hpre eq_refl) as (_ & _ & H).
  apply H; reflexivity.
Defined.

Lemma C4_empty_object_lacks_a_key :
  strip " {} " = "{}" /\
  exists key,
    In key Ultimate.required_keys /\ lacks [] key /\
    outcome_of (Ultimate.load_config empty_object_services "config.json" no_input)
    = Raise (ConfigError (missing_key_message key)).
Proof.
  split; [reflexivity|].
  destruct (C4_config_errors empty_object_services "config.json" no_input)
    as (_ & H & _).
  destruct (H tt " {} " tt eq_refl eq_refl) as (_ & _ & Hk).
  apply (Hk []); [discriminate | reflexivity|].
  exists "OPENAI_API_KEY"; split; [left; reflexivity | intros []].
Defined.

Lemma C7_done_and_exit_in_any_case :
  Agents.read_tasks (mkSt tt [Line "Write a parser"; Line "Done"; Line "later"])
  = (Ret ["Write a parser"], mkSt tt [Line "later"], [Prompt "> "; Prompt "> "]) /\
  outcome_of (Ultimate.main crew_fails_services 2
                (mkSt tt [Line "What is Rocq"; Line "help"; Line " EXIT "; Line "later"]))
  = Ret tt.
Proof.
  destruct (C7_sentinel_ends_input crew_fails_services 2) as (H1 & _ & _ & H4 & _).
  split.
  - apply (H1 tt ["Write a parser"] "Done" [Line "later"]); [|reflexivity].
    repeat constructor; unfold not_done; simpl; discriminate.
  - apply (H4 tt ["What is Rocq"; "help"] " EXIT " [Line "later"]); [| |reflexivity].
    + intros crew question w; reflexivity.
    + repeat constructor; unfold not_exit; vm_compute; discriminate.
Defined.

Lemma C8_crew_failure_logged :
  api_failure (OtherError "rate limit") /\
  Ultimate.main_round crew_fails_services 2 tt (mkSt tt [Line "What is Rocq"])
  = (Ret (inl tt), mkSt tt [],
     [ask_prompt; Log INFO "Processing question: What is Rocq";
      Call "crew.kickoff" "What is Rocq";
      Log ERROR "An error occurred: rate limit"]).
Proof.
  split; [reflexivity|].
  destruct (C8_failures_contained crew_fails_services (mkSt tt [Line "What is Rocq"]))
    as (_ & _ & _ & H & _).
  apply (H 2 "What is Rocq" [] (OtherError "rate limit") tt);
    try reflexivity; unfold not_exit; vm_compute; discriminate.
Defined.

(** ** Further properties of the hand-rolled scripts *)

Lemma append_assoc3 (a b c : string) : (a ++ b) ++ c = a ++ b ++ c.
Proof. induction a as [|x a IH]; simpl; [reflexivity | now rewrite IH]. Qed.

Lemma lower_app (a b : string) : lower (a ++ b) = lower a ++ lower b.
Proof. induction a as [|x a IH]; simpl; [reflexivity | now rewrite IH]. Qed.

Lemma mentions_in_context (kw s pre suf : string) :
  mentions kw s -> mentions kw (pre ++ s ++ suf).
Proof.
  intros (p & q & ->); exists (pre ++ p), (q ++ suf).
  now rewrite !append_assoc3.
Qed.

Lemma substring_0_prefix (n : nat) (s : string) :
  exists rest, s = substring 0 n s ++ rest.
Proof.
  revert s; induction n as [|n IH]; intros [|c s]; simpl.
  - exists ""; reflexivity.
  - exists (String c s); reflexivity.
  - exists ""; reflexivity.
  - destruct (IH s) as [rest E]; exists rest; now rewrite <- E.
Qed.

Lemma substring_0_all (n : nat) (s : string) :
  String.length s <= n -> substring 0 n s = s.
Proof.
  revert s; induction n as [|n IH]; intros [|c s]; simpl; intros H;
    try reflexivity; [lia|].
  rewrite IH by lia; reflexivity.
Qed.

(** X1. The fallbacks of [write_code] are not guarded: when the summary call
    has raised, an exception of the page call, or of the search call of the
    Google variant, leaves [write_code] as it is, after the calls made so
    far. *)
Theorem X1_fallback_failure_propagates {W : Type} (srv : Agents.Services W)
        (v : Agents.variant) (task : string) (st : St W) (e : exn) (w1 : W) :
  Agents.is_question task = true ->
  Agents.wiki_simple_summary srv task (world st) = (Raise e, w1) ->
  (forall e' w2,
      Agents.wiki_advanced_page srv task w1 = (Raise e', w2) ->
      outcome_of (Agents.write_code srv v task st) = Raise e' /\
      calls (trace_of (Agents.write_code srv v task st))
      = [Call "wikipedia.summary" task; Call "wikipediaapi.page" task]) /\
  (forall page w2 e' w3,
      Agents.wiki_advanced_page srv task w1 = (Ret page, w2) ->
      Agents.page_exists page = false ->
      Agents.google_search srv task w2 = (Raise e', w3) ->
      outcome_of (Agents.write_code srv Agents.WithGoogle task st) = Raise e' /\
      calls (trace_of (Agents.write_code srv Agents.WithGoogle task st))
      = [Call "wikipedia.summary" task; Call "wikipediaapi.page" task;
         Call "googlesearch.search" task]).
Proof.
  intros Hq Hs; split.
  - intros e' w2 Hp; unfold Agents.write_code; rewrite Hq.
    cbv [bind print emit try_except call ret world stdin]; destruct st as [w i].
    cbn [world] in Hs; rewrite Hs, Hp; destruct v; split; reflexivity.
  - intros page w2 e' w3 Hp Hx Hg.
    rewrite (write_code_no_page srv Agents.WithGoogle task st e w1 page w2 Hq Hs Hp Hx).
    cbv [Agents.no_page bind print emit call ret world stdin]; rewrite Hg.
    split; reflexivity.
Qed.

Lemma X1_page_call_fails :
  (outcome_of (Agents.write_code failing_page_services Agents.WikipediaOnly
                 "Who is Ada" no_input) = Raise (OtherError "connection reset")) /\
  (outcome_of (Agents.write_code failing_search_services Agents.WithGoogle
                 "Who is Ada" no_input) = Raise (OtherError "HTTP Error 429")).
Proof.
  split.
  - destruct (X1_fallback_failure_propagates failing_page_services
                Agents.WikipediaOnly "Who is Ada" no_input (PageError "no summary") tt
                eq_refl eq_refl) as [H _].
    exact (proj1 (H (OtherError "connection reset") tt eq_refl)).
  - destruct (X1_fallback_failure_propagates failing_search_services
                Agents.WithGoogle "Who is Ada" no_input (PageError "no summary") tt
                eq_refl eq_refl) as [_ H].
    exact (proj1 (H (Agents.mkPage false "") tt (OtherError "HTTP Error 429") tt
                    eq_refl eq_refl eq_refl)).
Defined.

(** X2. On the page branch the result of [write_code] is a beginning of the
    page summary, and the whole summary when it has at most 500 characters. *)
Theorem X2_short_summary_whole {W : Type} (srv : Agents.Services W)
        (v : Agents.variant) (task : string) (st : St W)
        (e : exn) (w1 : W) (page : Agents.WikipediaPage) (w2 : W) :
  Agents.is_question task = true ->
  Agents.wiki_simple_summary srv task (world st) = (Raise e, w1) ->
  Agents.wiki_advanced_page srv task w1 = (Ret page, w2) ->
  Agents.page_exists page = true ->
  (exists result rest,
      outcome_of (Agents.write_code srv v task st) = Ret result /\
      Agents.page_summary page = result ++ rest) /\
  (String.length (Agents.page_summary page) <= 500 ->
   outcome_of (Agents.write_code srv v task st) = Ret (Agents.page_summary page)).
Proof.
  intros Hq Hs Hp Hx.
  rewrite (write_code_page srv v task st e w1 page w2 Hq Hs Hp Hx).
  unfold outcome_of, slice_to; cbn [fst]; split.
  - destruct (substring_0_prefix 500 (Agents.page_summary page)) as [rest E].
    eexists _, rest; split; [reflexivity | exact E].
  - intros Hl; now rewrite substring_0_all.
Qed.

Lemma X2_short_page :
  String.length (Agents.page_summary short_page) <= 500 /\
  outcome_of (Agents.write_code short_page_services Agents.WithGoogle "Who is Ada"
                no_input)
  = Ret "Ada Lovelace was a mathematician.".
Proof.
  split; [vm_compute; lia|].
  apply (X2_short_summary_whole short_page_services Agents.WithGoogle "Who is Ada"
           no_input (PageError "no summary") tt short_page tt);
    try reflexivity.
  vm_compute; lia.
Defined.

(** X3. The test of [write_code] looks for the keywords anywhere: a task that
    contains, between any other text, a task taken as a question is taken as
    a question too. *)
Theorem X3_question_in_context (pre task suf : string) :
  Agents.is_question task = true ->
  Agents.is_question (pre ++ task ++ suf) = true.
Proof.
  rewrite !is_question_spec; unfold question_like.
  rewrite !lower_app.
  intros [H|[H|H]]; [left | right; left | right; right];
    apply mentions_in_context; exact H.
Qed.

Lemma X3_whois_client :
  Agents.is_question "WHO" = true /\
  Agents.is_question ("Write a " ++ "WHO" ++ "IS client") = true.
Proof.
  split; [reflexivity|].
  apply (X3_question_in_context "Write a " "WHO" "IS client"); reflexivity.
Defined.

(** *** Composition of computations that do not hang or do not read *)

Section FrameFacts.
Context {W : Type}.

Lemma never_diverges_ret {A} (a : A) : never_diverges (@ret W A a).
Proof. intros st; discriminate. Qed.

Lemma never_diverges_emit (ev : event) : never_diverges (@emit W ev).
Proof. intros st; discriminate. Qed.

Lemma never_diverges_call {A} (api arg : string) (f : W -> outcome A * W) :
  (forall w, fst (f w) <> Diverge) -> never_diverges (call api arg f).
Proof.
  intros H st; specialize (H (world st)); unfold call, outcome_of.
  destruct (f (world st)) as [o w]; exact H.
Qed.

Lemma never_diverges_bind {A B} (m : M W A) (k : A -> M W B) :
  never_diverges m -> (forall a, never_diverges (k a)) -> never_diverges (bind m k).
Proof.
  intros Hm Hk st; specialize (Hm st); unfold bind, outcome_of in *.
  destruct (m st) as [[[a|e|] s1] t1]; cbn [fst] in *;
    [| discriminate | exfalso; exact (Hm eq_refl)].
  specialize (Hk a s1); unfold outcome_of in Hk.
  destruct (k a s1) as [[o s2] t2]; exact Hk.
Qed.

Lemma never_diverges_try {A} (body : M W A) (catches : exn -> bool)
      (handler : exn -> M W A) :
  never_diverges body -> (forall e, never_diverges (handler e)) ->
  never_diverges (try_except body catches handler).
Proof.
  intros Hb Hh st; specialize (Hb st); unfold try_except, outcome_of in *.
  destruct (body st) as [[[a|e|] s1] t1]; cbn [fst] in *; try discriminate;
    [|exfalso; exact (Hb eq_refl)].
  destruct (catches e); [|discriminate].
  specialize (Hh e s1); unfold outcome_of in Hh.
  destruct (handler e s1) as [[o s2] t2]; exact Hh.
Qed.

Lemma never_diverges_for_each {A} (xs : list A) (body : A -> M W unit) :
  (forall x, never_diverges (body x)) -> never_diverges (for_each xs body).
Proof.
  intros Hb; induction xs as [|x xs IH]; cbn [for_each].
  - apply never_diverges_ret.
  - apply never_diverges_bind; [apply Hb | intros _; exact IH].
Qed.

Lemma keeps_stdin_ret {A} (a : A) : keeps_stdin (@ret W A a).
Proof. intros st; reflexivity. Qed.

Lemma keeps_stdin_emit (ev : event) : keeps_stdin (@emit W ev).
Proof. intros st; reflexivity. Qed.

Lemma keeps_stdin_call {A} (api arg : string) (f : W -> outcome A * W) :
  keeps_stdin (call api arg f).
Proof.
  intros st; unfold call, final_of; destruct (f (world st)); reflexivity.
Qed.

Lemma keeps_stdin_bind {A B} (m : M W A) (k : A -> M W B) :
  keeps_stdin m -> (forall a, keeps_stdin (k a)) -> keeps_stdin (bind m k).
Proof.
  intros Hm Hk st; specialize (Hm st); unfold bind, final_of in *.
  destruct (m st) as [[[a|e|] s1] t1]; cbn [fst snd] in *; try exact Hm.
  specialize (Hk a s1); unfold final_of in Hk.
  destruct (k a s1) as [[o s2] t2]; cbn [fst snd] in *; congruence.
Qed.

Lemma keeps_stdin_try {A} (body : M W A) (catches : exn -> bool)
      (handler : exn -> M W A) :
  keeps_stdin body -> (forall e, keeps_stdin (handler e)) ->
  keeps_stdin (try_except body catches handler).
Proof.
  intros Hb Hh st; specialize (Hb st); unfold try_except, final_of in *.
  destruct (body st) as [[[a|e|] s1] t1]; cbn [fst snd] in *; try exact Hb.
  destruct (catches e); [|exact Hb].
  specialize (Hh e s1); unfold final_of in Hh.
  destruct (handler e s1) as [[o s2] t2]; cbn [fst snd] in *; congruence.
Qed.

Lemma keeps_stdin_for_each {A} (xs : list A) (body : A -> M W unit) :
  (forall x, keeps_stdin (body x)) -> keeps_stdin (for_each xs body).
Proof.
  intros Hb; induction xs as [|x xs IH]; cbn [for_each].
  - apply keeps_stdin_ret.
  - apply keeps_stdin_bind; [apply Hb | intros _; exact IH].
Qed.

End FrameFacts.

Section FlowFrame.
Import Agents.
Context {W : Type} (srv : Services W).

Lemma write_code_never_diverges (v : variant) (task : string) :
  services_respond srv -> never_diverges (write_code srv v task).
Proof.
  intros Hr; unfold write_code.
  apply never_diverges_bind; [apply never_diverges_emit | intros _].
  destruct (is_question task).
  - apply never_diverges_bind; [apply never_diverges_emit | intros _].
    apply never_diverges_try.
    + apply never_diverges_bind;
        [apply never_diverges_call; intros w; apply (Hr task w) | intros answer].
      apply never_diverges_bind; [apply never_diverges_emit | intros _].
      apply never_diverges_ret.
    + intros e.
      apply never_diverges_bind; [apply never_diverges_emit | intros _].
      apply never_diverges_bind;
        [apply never_diverges_call; intros w; apply (Hr task w) | intros page].
      destruct (page_exists page); [apply never_diverges_ret|].
      destruct v; cbn [no_page]; [|apply never_diverges_ret].
      apply never_diverges_bind; [apply never_diverges_emit | intros _].
      apply never_diverges_bind;
        [apply never_diverges_call; intros w; apply (Hr task w) | intros results].
      destruct results; apply never_diverges_ret.
  - apply never_diverges_bind; [apply never_diverges_emit | intros _].
    apply never_diverges_ret.
Qed.

Lemma process_task_never_diverges (v : variant) (task : string) :
  services_respond srv -> never_diverges (process_task srv v task).
Proof.
  intros Hr st; rewrite process_task_run.
  pose proof (write_code_never_diverges v task Hr st) as H; unfold outcome_of in *.
  destruct (write_code srv v task st) as [[[r|e|] s1] t1]; cbn [fst] in *;
    try discriminate; exfalso; exact (H eq_refl).
Qed.

Lemma write_code_keeps_stdin (v : variant) (task : string) :
  keeps_stdin (write_code srv v task).
Proof.
  unfold write_code.
  apply keeps_stdin_bind; [apply keeps_stdin_emit | intros _].
  destruct (is_question task).
  - apply keeps_stdin_bind; [apply keeps_stdin_emit | intros _].
    apply keeps_stdin_try.
    + apply keeps_stdin_bind; [apply keeps_stdin_call | intros answer].
      apply keeps_stdin_bind; [apply keeps_stdin_emit | intros _].
      apply keeps_stdin_ret.
    + intros e.
      apply keeps_stdin_bind; [apply keeps_stdin_emit | intros _].
      apply keeps_stdin_bind; [apply keeps_stdin_call | intros page].
      destruct (page_exists page); [apply keeps_stdin_ret|].
      destruct v; cbn [no_page]; [|apply keeps_stdin_ret].
      apply keeps_stdin_bind; [apply keeps_stdin_emit | intros _].
      apply keeps_stdin_bind; [apply keeps_stdin_call | intros results].
      destruct results; apply keeps_stdin_ret.
  - apply keeps_stdin_bind; [apply keeps_stdin_emit | intros _].
    apply keeps_stdin_ret.
Qed.

Lemma process_task_keeps_stdin (v : variant) (task : string) :
  keeps_stdin (process_task srv v task).
Proof.
  intros st; rewrite process_task_run.
  pose proof (write_code_keeps_stdin v task st) as H; unfold final_of in *.
  destruct (write_code srv v task st) as [[[r|e|] s1] t1]; exact H.
Qed.

Lemma read_loop_ctrlc (lines : list string) (fuel : nat) (acc : list string) (w : W)
      (rest : list input_item) :
  Forall not_done lines -> List.length lines < fuel ->
  while_true fuel read_round acc (mkSt w (map Line lines ++ CtrlC :: rest)%list)
  = (Raise KeyboardInterrupt, mkSt w rest,
     repeat (Prompt "> ") (S (List.length lines))).
Proof.
  intros Hl; revert fuel acc.
  induction Hl as [|p lines Hp _ IH]; intros fuel acc Hf.
  - destruct fuel as [|n]; [inversion Hf|]; reflexivity.
  - destruct fuel as [|n]; [inversion Hf|].
    cbn [while_true map app]; unfold bind at 1; rewrite read_round_line.
    apply String.eqb_neq in Hp; rewrite Hp.
    rewrite (IH n (acc ++ [p])%list) by (cbn in Hf; lia).
    reflexivity.
Qed.


End FlowFrame.

Section FlowReview.
Import Agents.
Context {W : Type} (srv : Services W).

Ltac not_the_review :=
  let E := fresh "E" in
  intros E; unfold reviewing_line in E; simpl in E; discriminate E.

Lemma write_code_no_review (v : variant) (task : string) :
  emits (fun ev => ev <> reviewing_line) (write_code srv v task).
Proof.
  unfold write_code.
  apply emits_bind; [apply emits_emit; not_the_review | intros _].
  destruct (is_question task).
  - apply emits_bind; [apply emits_emit; destruct v; not_the_review | intros _].
    apply emits_try.
    + apply emits_bind; [apply emits_call; discriminate | intros answer].
      apply emits_bind; [apply emits_emit; not_the_review | intros _].
      apply emits_ret.
    + intros e.
      apply emits_bind; [apply emits_emit; not_the_review | intros _].
      apply emits_bind; [apply emits_call; discriminate | intros page].
      destruct (page_exists page); [apply emits_ret|].
      destruct v; cbn [no_page]; [|apply emits_ret].
      apply emits_bind; [apply emits_emit; not_the_review | intros _].
      apply emits_bind; [apply emits_call; discriminate | intros results].
      destruct results; apply emits_ret.
  - apply emits_bind; [apply emits_emit; not_the_review | intros _].
    apply emits_ret.
Qed.

Lemma process_task_no_review (v : variant) (task : string) :
  emits (fun ev => ev <> reviewing_line) (process_task srv v task).
Proof.
  intros st; rewrite process_task_run.
  pose proof (write_code_no_review v task st) as H; unfold trace_of in *.
  destruct (write_code srv v task st) as [[[r|e|] s1] t1]; cbn [snd] in *.
  - constructor; [unfold round_head; not_the_review|].
    apply Forall_app; split; [exact H|].
    unfold round_tail; repeat constructor; not_the_review.
  - constructor; [unfold round_head; not_the_review | exact H].
  - constructor; [unfold round_head; not_the_review | exact H].
Qed.

Lemma read_tasks_no_review :
  emits (W := W) (fun ev => ev <> reviewing_line) read_tasks.
Proof.
  unfold read_tasks; apply emits_input_loop; intros tasks; unfold read_round.
  apply emits_bind; [apply emits_input; discriminate | intros task].
  destruct (String.eqb (lower task) "done"); apply emits_ret.
Qed.

End FlowReview.

(** X4. [crewai_flow] comes to an end whenever the services do: with
    services that answer or raise, no run hangs, whatever the input. *)
Theorem X4_flow_comes_to_an_end {W : Type} (srv : Agents.Services W)
        (v : Agents.variant) (st : St W) :
  services_respond srv ->
  outcome_of (Agents.crewai_flow srv v st) <> Diverge.
Proof.
  intros Hr; rewrite crewai_flow_run.
  pose proof (read_loop_stops (S (List.length (stdin st))) [] st (Nat.lt_succ_diag_r _))
    as Hl.
  fold (input_loop (W := W) Agents.read_round [] st) in Hl.
  fold (@Agents.read_tasks W st) in Hl.
  destruct (Agents.read_tasks st) as [[[[|t ts]|e|] s1] t1]; unfold outcome_of in *;
    cbn [fst] in *; try discriminate; [|exfalso; exact (Hl eq_refl)].
  pose proof (never_diverges_for_each (t :: ts) (Agents.process_task srv v)
                (fun x => process_task_never_diverges srv v x Hr) s1) as Hf.
  unfold outcome_of in Hf.
  destruct (for_each (t :: ts) (Agents.process_task srv v) s1) as [[[[]|e|] s2] t2];
    cbn [fst] in *; try discriminate; exact Hf.
Qed.

Lemma X4_no_sentinel_still_ends :
  services_respond search_only_services /\
  outcome_of (Agents.crewai_flow search_only_services Agents.WithGoogle
                (mkSt tt [Line "Who is Ada"])) <> Diverge.
Proof.
  assert (H : services_respond search_only_services).
  { intros task w; repeat split; discriminate. }
  split; [exact H|].
  exact (X4_flow_comes_to_an_end search_only_services Agents.WithGoogle
           (mkSt tt [Line "Who is Ada"]) H).
Defined.

(** X5. When the input ends, or Ctrl-C comes, before a sentinel line,
    [crewai_flow] ends with [EOFError], or [KeyboardInterrupt]: the lines
    entered so far are dropped, nothing is printed after the prompts and no
    service is called. *)
Theorem X5_input_cut_short {W : Type} (srv : Agents.Services W) (v : Agents.variant)
        (w : W) (lines : list string) :
  Forall not_done lines ->
  Agents.crewai_flow srv v (mkSt w (map Line lines))
  = (Raise EOFError, mkSt w [],
     enter_line :: repeat (Prompt "> ") (S (List.length lines))) /\
  forall rest,
    Agents.crewai_flow srv v (mkSt w (map Line lines ++ CtrlC :: rest)%list)
    = (Raise KeyboardInterrupt, mkSt w rest,
       enter_line :: repeat (Prompt "> ") (S (List.length lines))).
Proof.
  intros Hl; split; [|intros rest]; rewrite crewai_flow_run;
    unfold Agents.read_tasks, input_loop.
  - rewrite (read_loop_eof lines _ [] w Hl); [reflexivity|].
    cbn [stdin]; rewrite length_map; lia.
  - rewrite (read_loop_ctrlc lines _ [] w rest Hl); [reflexivity|].
    cbn [stdin]; rewrite length_app, length_map; cbn; lia.
Qed.

Lemma X5_tasks_without_done :
  Forall not_done ["Write a parser"; "Who is Ada"] /\
  Agents.crewai_flow search_only_services Agents.WithGoogle
    (mkSt tt [Line "Write a parser"; Line "Who is Ada"])
  = (Raise EOFError, mkSt tt [], [enter_line; Prompt "> "; Prompt "> "; Prompt "> "]).
Proof.
  assert (H : Forall not_done ["Write a parser"; "Who is Ada"]).
  { repeat constructor; unfold not_done; simpl; discriminate. }
  split; [exact H|].
  exact (proj1 (X5_input_cut_short search_only_services Agents.WithGoogle tt
                  ["Write a parser"; "Who is Ada"] H)).
Defined.



(** X7. The feedback of the client is reviewed exactly in the runs that
    return after taking up at least one task: not when no task was entered,
    and not when the input was cut short or a task ended with an exception. *)
Theorem X7_review_only_after_all_tasks {W : Type} (srv : Agents.Services W)
        (v : Agents.variant) (st : St W) :
  let run := Agents.crewai_flow srv v st in
  In reviewing_line (trace_of run)
  <-> outcome_of run = Ret tt /\ processed (trace_of run) <> [].
Proof.
  cbn zeta.
  pose proof (read_tasks_no_review st) as Hr.
  pose proof (read_tasks_silent st) as Hs.
  destruct (Agents.read_tasks st) as [[o s1] t1] eqn:R.
  unfold trace_of in Hr, Hs; cbn [snd] in Hr, Hs.
  assert (He : enter_line <> reviewing_line) by discriminate.
  assert (Hi : initializing_line <> reviewing_line) by discriminate.
  destruct o as [[|t ts]|e|].
  - pose proof (crewai_flow_reading srv v st s1 [] t1 R) as [_ C]; cbn zeta in C.
    rewrite crewai_flow_run, R in *; unfold trace_of, outcome_of in *; cbn [fst snd] in *.
    split.
    + intros [H|H]; [contradiction|].
      apply in_app_iff in H as [H|[H|[]]]; [|discriminate H].
      rewrite Forall_forall in Hr; exfalso; exact (Hr _ H eq_refl).
    + intros [_ H]; destruct (C eq_refl) as [P _]; contradiction.
  - pose proof (crewai_flow_reading srv v st s1 (t :: ts) t1 R) as [_ C]; cbn zeta in C.
    pose proof (emits_for_each (fun ev => ev <> reviewing_line) (t :: ts)
                  (Agents.process_task srv v)
                  (fun x => process_task_no_review srv v x) s1) as Hf.
    rewrite crewai_flow_run, R in *.
    destruct (for_each (t :: ts) (Agents.process_task srv v) s1) as [[[[]|e|] s2] t2];
      unfold trace_of, outcome_of in *; cbn [fst snd] in *.
    + split.
      * intros _; split; [reflexivity|].
        destruct (C eq_refl) as [P _]; rewrite P; discriminate.
      * intros _; right; apply in_or_app; right; right.
        apply in_or_app; right; left; reflexivity.
    + split; [|intros [H _]; discriminate H].
      intros [H|H]; [contradiction|].
      apply in_app_iff in H as [H|[H|H]]; [| contradiction |];
        rewrite Forall_forall in Hr, Hf; exfalso;
        [exact (Hr _ H eq_refl) | exact (Hf _ H eq_refl)].
    + split; [|intros [H _]; discriminate H].
      intros [H|H]; [contradiction|].
      apply in_app_iff in H as [H|[H|H]]; [| contradiction |];
        rewrite Forall_forall in Hr, Hf; exfalso;
        [exact (Hr _ H eq_refl) | exact (Hf _ H eq_refl)].
  - rewrite crewai_flow_run, R; unfold trace_of, outcome_of; cbn [fst snd].
    split; [|intros [H _]; discriminate H].
    intros [H|H]; [contradiction|].
    rewrite Forall_forall in Hr; exfalso; exact (Hr _ H eq_refl).
  - rewrite crewai_flow_run, R; unfold trace_of, outcome_of; cbn [fst snd].
    split; [|intros [H _]; discriminate H].
    intros [H|H]; [contradiction|].
    rewrite Forall_forall in Hr; exfalso; exact (Hr _ H eq_refl).
Qed.

(** X8. Nothing after the sentinel is read: whatever the tasks do, return or
    raise, the lines that follow the sentinel are still in the input when
    [crewai_flow] ends. *)
Theorem X8_lines_after_sentinel_unread {W : Type} (srv : Agents.Services W)
        (v : Agents.variant) (w : W) (pre : list string) (line : string)
        (rest : list input_item) :
  Forall not_done pre -> lower line = "done" ->
  stdin (final_of (Agents.crewai_flow srv v
                     (mkSt w (map Line pre ++ Line line :: rest)%list))) = rest.
Proof.
  intros Hd Hl; rewrite crewai_flow_run.
  unfold Agents.read_tasks, input_loop.
  rewrite (read_loop_run pre _ [] w line rest Hd Hl)
    by (cbn [stdin]; rewrite length_app, length_map; cbn; lia).
  cbn [app]; destruct pre as [|t ts]; [reflexivity|].
  pose proof (keeps_stdin_for_each (t :: ts) (Agents.process_task srv v)
                (fun x => process_task_keeps_stdin srv v x) (mkSt w rest)) as Hk.
  unfold final_of in *.
  destruct (for_each (t :: ts) (Agents.process_task srv v) (mkSt w rest))
    as [[[[]|e|] s2] t2]; exact Hk.
Qed.

Lemma X8_failing_task_leaves_rest :
  Forall not_done ["Who is Ada"] /\
  outcome_of (Agents.crewai_flow failing_page_services Agents.WithGoogle
                (mkSt tt [Line "Who is Ada"; Line "done"; Line "later"]))
  = Raise (OtherError "connection reset") /\
  stdin (final_of (Agents.crewai_flow failing_page_services Agents.WithGoogle
                     (mkSt tt [Line "Who is Ada"; Line "done"; Line "later"])))
  = [Line "later"].
Proof.
  assert (Hd : Forall not_done ["Who is Ada"]).
  { repeat constructor; unfold not_done; simpl; discriminate. }
  split; [exact Hd | split; [reflexivity|]].
  exact (X8_lines_after_sentinel_unread failing_page_services Agents.WithGoogle tt
           ["Who is Ada"] "done" [Line "later"] Hd eq_refl).
Defined.

(** ** Further properties of the third script *)

Section StartFacts.
Import Ultimate.
Context {W : Type} (srv : Services W).

Lemma lookup_of_has_key (entries : list (string * json)) (key : string) :
  existsb (fun kv => String.eqb (fst kv) key) entries = true ->
  lookup key entries = Some (value_of entries key).
Proof.
  unfold value_of; induction entries as [|[k v] entries IH]; simpl; [discriminate|].
  destruct (String.eqb k key); [reflexivity|].
  simpl; intros H; destruct (lookup key entries); [reflexivity|].
  specialize (IH H); discriminate IH.
Qed.

Lemma is_string_in (items : list json) (key : string) :
  In (JString key) items -> existsb (is_string key) items = true.
Proof.
  intros H; apply existsb_exists; exists (JString key); split; [exact H|].
  apply String.eqb_refl.
Qed.

Lemma load_config_raises (f : string) (st : St W) (e : exn) :
  outcome_of (load_config srv f st) = Raise e -> api_failure e ->
  exists m, e = ConfigError m.
Proof.
  unfold load_config, try_except, outcome_of.
  match goal with |- context [match ?b st with _ => _ end] =>
    destruct (b st) as [[[c|e'|] s1] t1] end; cbn [fst]; try discriminate.
  destruct (is_Exception e') eqn:Hx.
  - destruct e'; cbn [fst]; intros H _; injection H as <-; eexists; reflexivity.
  - cbn [fst]; intros H Ha; injection H as <-.
    unfold api_failure in Ha; congruence.
Qed.

Lemma initialize_apis_raises (config : json) (st : St W) (e : exn) :
  outcome_of (initialize_apis srv config st) = Raise e -> api_failure e ->
  exists cause, e = APIError ("Failed to initialize APIs: " ++ str_of_exn cause).
Proof.
  unfold initialize_apis, try_except, outcome_of.
  match goal with |- context [match ?b st with _ => _ end] =>
    destruct (b st) as [[[c|e'|] s1] t1] end; cbn [fst]; try discriminate.
  destruct (is_Exception e') eqn:Hx.
  - cbn [fst]; intros H _; injection H as <-; exists e'; reflexivity.
  - cbn [fst]; intros H Ha; injection H as <-.
    unfold api_failure in Ha; congruence.
Qed.

(** The converse of [load_config_returns]. *)
Lemma load_config_accepts (f : string) (st : St W) (w1 w2 : W) (raw : string)
      (config : json) :
  path_exists srv f (world st) = (Ret true, w1) ->
  read_file srv f w1 = (Ret raw, w2) ->
  strip raw <> "" ->
  json_loads srv (strip raw) = Ret config ->
  (forall key, In key required_keys -> py_in key config = Ret true) ->
  load_config srv f st
  = (Ret config, mkSt w2 (stdin st), [Call "os.path.exists" f; Call "open" f]).
Proof.
  intros He Hr Hs Hj Hk; unfold load_config.
  cbv [try_except bind call raise lift ret for_each required_keys require_key
         world stdin].
  destruct st as [w i].
  cbn [world] in He; rewrite He; cbn [negb].
  apply String.eqb_neq in Hs; rewrite Hr, Hs, Hj.
  rewrite (Hk "OPENAI_API_KEY"), (Hk "GOOGLE_API_KEY"), (Hk "GOOGLE_CSE_ID");
    [reflexivity | | |]; simpl; auto.
Qed.

(** [initialize_apis] on a dict that has the three keys. *)
Lemma initialize_apis_dict (entries : list (string * json)) (st : St W) :
  (forall key, In key required_keys -> py_in key (JDict entries) = Ret true) ->
  initialize_apis srv (JDict entries) st
  = let w' := set_openai_key srv (value_of entries "OPENAI_API_KEY") (world st) in
    match build srv (value_of entries "GOOGLE_API_KEY") w' with
    | (Ret service, w2) =>
        (Ret service, mkSt w2 (stdin st),
         [Call "googleapiclient.discovery.build" "customsearch";
          Log INFO "APIs initialized successfully."])
    | (Raise e, w2) =>
        if is_Exception e
        then (Raise (APIError ("Failed to initialize APIs: " ++ str_of_exn e)),
              mkSt w2 (stdin st),
              [Call "googleapiclient.discovery.build" "customsearch"])
        else (Raise e, mkSt w2 (stdin st),
              [Call "googleapiclient.discovery.build" "customsearch"])
    | (Diverge, w2) =>
        (Diverge, mkSt w2 (stdin st),
         [Call "googleapiclient.discovery.build" "customsearch"])
    end.
Proof.
  intros Hk.
  assert (L : forall key, In key required_keys ->
                          lookup key entries = Some (value_of entries key)).
  { intros key Hin; specialize (Hk key Hin); injection Hk as Hk.
    apply lookup_of_has_key; exact Hk. }
  unfold initialize_apis.
  cbv [try_except bind call raise lift ret log emit py_getitem world stdin].
  destruct st as [w i].
  rewrite (L "OPENAI_API_KEY"), (L "GOOGLE_API_KEY"), (L "GOOGLE_CSE_ID");
    [| simpl; auto | simpl; auto | simpl; auto].
  destruct (build srv (value_of entries "GOOGLE_API_KEY")
                  (set_openai_key srv (value_of entries "OPENAI_API_KEY") w))
    as [[service|e|] w2]; reflexivity.
Qed.

Lemma initialize_apis_list (items : list json) (st : St W) :
  initialize_apis srv (JList items) st
  = (Raise (APIError ("Failed to initialize APIs: "
                      ++ "list indices must be integers or slices, not str")),
     st, []).
Proof. destruct st; reflexivity. Qed.

Lemma initialize_apis_trace (config : json) :
  emits (fun ev => ev = Call "googleapiclient.discovery.build" "customsearch"
                   \/ ev = Log INFO "APIs initialized successfully.")
        (initialize_apis srv config).
Proof.
  unfold initialize_apis; apply emits_try.
  - apply emits_bind; [apply emits_lift | intros k1].
    apply emits_bind; [intros st; constructor | intros _].
    apply emits_bind; [apply emits_lift | intros k2].
    apply emits_bind; [apply emits_lift | intros k3].
    apply emits_bind; [apply emits_call; auto | intros service].
    apply emits_bind; [apply emits_emit; auto | intros _].
    apply emits_ret.
  - intros e; apply emits_raise.
Qed.

End StartFacts.

(** X9. [load_config] raises no [Exception] but [ConfigError]: whatever goes
    wrong inside, a file that cannot be read or a parsed value that cannot
    be searched for the keys included, comes out as a configuration error. *)
Theorem X9_load_config_raises_config_error {W : Type} (srv : Ultimate.Services W)
        (f : string) (st : St W) (e : exn) :
  outcome_of (Ultimate.load_config srv f st) = Raise e -> api_failure e ->
  exists m, e = ConfigError m.
Proof. apply load_config_raises. Qed.

Lemma X9_unreadable_file :
  outcome_of (Ultimate.load_config unreadable_file_services "config.json" no_input)
  = Raise (ConfigError "Failed to load configuration: Permission denied") /\
  exists m, ConfigError "Failed to load configuration: Permission denied" = ConfigError m.
Proof.
  split; [reflexivity|].
  apply (X9_load_config_raises_config_error unreadable_file_services "config.json"
           no_input); reflexivity.
Defined.



(** X11. After [load_config] has returned a dict, the three lookups of
    [initialize_apis] cannot fail: the OpenAI key is set, the Google service
    is built with the Google key of the file and returned, and only a
    failure of the build makes [initialize_apis] raise. *)
Theorem X11_loaded_dict_initializes {W : Type} (srv : Ultimate.Services W)
        (f : string) (st : St W) (entries : list (string * Ultimate.json))
        (s : St W) :
  outcome_of (Ultimate.load_config srv f st) = Ret (Ultimate.JDict entries) ->
  let w' := Ultimate.set_openai_key srv (value_of entries "OPENAI_API_KEY") (world s) in
  (forall service w2,
      Ultimate.build srv (value_of entries "GOOGLE_API_KEY") w' = (Ret service, w2) ->
      Ultimate.initialize_apis srv (Ultimate.JDict entries) s
      = (Ret service, mkSt w2 (stdin s),
         [Call "googleapiclient.discovery.build" "customsearch";
          Log INFO "APIs initialized successfully."])) /\
  (forall e w2,
      Ultimate.build srv (value_of entries "GOOGLE_API_KEY") w' = (Raise e, w2) ->
      api_failure e ->
      Ultimate.initialize_apis srv (Ultimate.JDict entries) s
      = (Raise (APIError ("Failed to initialize APIs: " ++ str_of_exn e)),
         mkSt w2 (stdin s),
         [Call "googleapiclient.discovery.build" "customsearch"])).
Proof.
  intros Hl; cbn zeta.
  destruct (load_config_returns srv f st _ Hl) as (w1 & raw & w2 & _ & _ & _ & _ & Hk).
  rewrite (initialize_apis_dict srv entries s Hk); cbn zeta; split.
  - intros service w3 Hb; rewrite Hb; reflexivity.
  - intros e w3 Hb Ha; rewrite Hb, Ha; reflexivity.
Qed.

Lemma X11_full_config_initializes :
  outcome_of (Ultimate.load_config crew_fails_services "config.json" no_input)
  = Ret full_config /\
  Ultimate.initialize_apis crew_fails_services full_config no_input
  = (Ret 0, no_input,
     [Call "googleapiclient.discovery.build" "customsearch";
      Log INFO "APIs initialized successfully."]).
Proof.
  split; [reflexivity|].
  destruct (X11_loaded_dict_initializes crew_fails_services "config.json" no_input
              [("OPENAI_API_KEY", Ultimate.JString "sk");
               ("GOOGLE_API_KEY", Ultimate.JString "gk");
               ("GOOGLE_CSE_ID", Ultimate.JString "cx")] no_input eq_refl) as [H _].
  exact (H 0 tt eq_refl).
Defined.

(** X12. [load_config] returns the parsed value, after exactly the two
    accesses to the file, whenever the file is there, its stripped text is
    not empty and parses, and each of the three keys is [in] the value. *)
Theorem X12_load_config_accepts {W : Type} (srv : Ultimate.Services W) (f : string)
        (st : St W) (w1 w2 : W) (raw : string) (config : Ultimate.json) :
  Ultimate.path_exists srv f (world st) = (Ret true, w1) ->
  Ultimate.read_file srv f w1 = (Ret raw, w2) ->
  strip raw <> "" ->
  Ultimate.json_loads srv (strip raw) = Ret config ->
  (forall key, In key Ultimate.required_keys -> Ultimate.py_in key config = Ret true) ->
  Ultimate.load_config srv f st
  = (Ret config, mkSt w2 (stdin st), [Call "os.path.exists" f; Call "open" f]).
Proof. apply load_config_accepts. Qed.

Lemma X12_full_config_accepted :
  strip full_config_text <> "" /\
  Ultimate.load_config crew_fails_services "config.json" no_input
  = (Ret full_config, no_input,
     [Call "os.path.exists" "config.json"; Call "open" "config.json"]).
Proof.
  split; [vm_compute; discriminate|].
  apply (X12_load_config_accepts crew_fails_services "config.json" no_input tt tt
           full_config_text full_config); try reflexivity.
  - vm_compute; discriminate.
  - intros key [<-|[<-|[<-|[]]]]; reflexivity.
Defined.

(** X13. The test of the required keys is the Python [in], so a JSON list
    that has the three key names among its items passes it: [load_config]
    returns the list, and [initialize_apis] then fails on it with an
    [APIError]. *)
Theorem X13_list_of_names_passes {W : Type} (srv : Ultimate.Services W) (f : string)
        (st : St W) (w1 w2 : W) (raw : string) (items : list Ultimate.json) :
  Ultimate.path_exists srv f (world st) = (Ret true, w1) ->
  Ultimate.read_file srv f w1 = (Ret raw, w2) ->
  strip raw <> "" ->
  Ultimate.json_loads srv (strip raw) = Ret (Ultimate.JList items) ->
  (forall key, In key Ultimate.required_keys -> In (Ultimate.JString key) items) ->
  outcome_of (Ultimate.load_config srv f st) = Ret (Ultimate.JList items) /\
  forall s, exists m,
      outcome_of (Ultimate.initialize_apis srv (Ultimate.JList items) s)
      = Raise (APIError m).
Proof.
  intros He Hr Hs Hj Hk; split.
  - rewrite (load_config_accepts srv f st w1 w2 raw _ He Hr Hs Hj); [reflexivity|].
    intros key Hin; cbn [Ultimate.py_in].
    rewrite (is_string_in items key (Hk key Hin)); reflexivity.
  - intros s; rewrite initialize_apis_list; eexists; reflexivity.
Qed.

Lemma X13_list_config :
  outcome_of (Ultimate.load_config list_config_services "config.json" no_input)
  = Ret list_config /\
  exists m,
    outcome_of (Ultimate.initialize_apis list_config_services list_config no_input)
    = Raise (APIError m).
Proof.
  destruct (X13_list_of_names_passes list_config_services "config.json" no_input tt tt
              list_config_text
              [Ultimate.JString "OPENAI_API_KEY"; Ultimate.JString "GOOGLE_API_KEY";
               Ultimate.JString "GOOGLE_CSE_ID"]) as [H1 H2]; try reflexivity.
  - vm_compute; discriminate.
  - intros key [<-|[<-|[<-|[]]]]; simpl; auto.
  - split; [exact H1 | exact (H2 no_input)].
Defined.

Section HelperFacts.
Import Ultimate.
Context {W : Type} (srv : Services W).

Lemma emits_weaken {A} (P Q : event -> Prop) (m : M W A) :
  (forall ev, P ev -> Q ev) -> emits P m -> emits Q m.
Proof. intros H Hm st; eapply Forall_impl; [exact H | apply Hm]. Qed.

Lemma log_then_ret_never_raises {A} (lvl : level) (msg : string) (a : A) :
  never_raises (W := W) (log lvl msg ;; ret a).
Proof.
  apply never_raises_bind; [apply never_raises_emit | intros; apply never_raises_ret].
Qed.

Lemma search_google_escapes (query : string) (service : handle) (st : St W) (e : exn) :
  outcome_of (search_google srv query service st) = Raise e -> ~ api_failure e.
Proof.
  intros H Ha; unfold search_google in H.
  apply try_except_escapes in H; [unfold api_failure in Ha; congruence|].
  intros e'; apply log_then_ret_never_raises.
Qed.

Lemma search_google_answer (query : string) (service : handle) (st : St W)
      (res : json) (w1 : W) :
  cse_list_execute srv service query (world st) = (Ret res, w1) ->
  exists found tr,
    search_google srv query service st = (Ret found, mkSt w1 (stdin st), tr) /\
    found = match res with
            | JDict entries =>
                match lookup "items" entries with
                | Some v => v
                | None => JList []
                end
            | _ => JList []
            end.
Proof.
  intros Hc; unfold search_google.
  cbv [try_except bind log emit call ret lift py_get world stdin]; destruct st as [w i].
  cbn [world] in Hc; rewrite Hc.
  destruct res as [| | | | | |entries]; try (eexists _, _; split; reflexivity).
  destruct (lookup "items" entries); eexists _, _; split; reflexivity.
Qed.

Lemma ask_chatgpt_escapes (question context : string) (st : St W) (e : exn) :
  outcome_of (ask_chatgpt srv question context st) = Raise e -> ~ api_failure e.
Proof.
  intros H Ha; unfold ask_chatgpt in H.
  apply try_except_escapes in H; [unfold api_failure in Ha; congruence|].
  intros e'; apply log_then_ret_never_raises.
Qed.

Lemma ask_chatgpt_answer (question context : string) (st : St W) (answer : string)
      (w1 : W) :
  chat_completion srv ("Context: " ++ context ++ nl ++ "Question: " ++ question)
                  (world st) = (Ret answer, w1) ->
  ask_chatgpt srv question context st
  = (Ret answer, mkSt w1 (stdin st),
     [Log INFO ("Asking ChatGPT: " ++ question);
      Call "openai.ChatCompletion.create" question]).
Proof.
  intros Hc; unfold ask_chatgpt.
  cbv [try_except bind log emit call ret world stdin]; destruct st as [w i].
  cbn [world] in Hc; rewrite Hc; reflexivity.
Qed.

Lemma search_wikipedia_ambiguous (query : string) (st : St W) (m : string)
      (options : list string) (w1 : W) :
  wikipedia_summary srv query (world st) = (Raise (DisambiguationError m options), w1) ->
  search_wikipedia srv query st
  = let head := [Log INFO ("Searching Wikipedia for: " ++ query);
                 Call "wikipedia.summary" query;
                 Log WARNING ("Disambiguation error for Wikipedia search: " ++ m)] in
    match options with
    | first :: _ =>
        let '(o, w2) := wikipedia_summary srv first w1 in
        (o, mkSt w2 (stdin st), head ++ [Call "wikipedia.summary" first])
    | [] => (Raise (IndexError "list index out of range"), mkSt w1 (stdin st), head)
    end%list.
Proof.
  intros Hc; unfold search_wikipedia.
  cbv [try_except bind log emit call ret raise world stdin]; destruct st as [w i].
  cbn [world] in Hc; rewrite Hc; cbn [is_Exception str_of_exn].
  destruct options as [|first others]; [reflexivity|].
  destruct (wikipedia_summary srv first w1) as [o w2]; reflexivity.
Qed.

Lemma search_wikipedia_escapes (query : string) (st : St W) (e : exn) :
  outcome_of (search_wikipedia srv query st) = Raise e -> api_failure e ->
  exists m options w1,
    wikipedia_summary srv query (world st) = (Raise (DisambiguationError m options), w1).
Proof.
  unfold search_wikipedia.
  cbv [try_except bind log emit call ret raise world stdin outcome_of];
    destruct st as [w i].
  destruct (wikipedia_summary srv query w) as [[s|e'|] w1]; cbn [fst];
    try discriminate.
  destruct (is_Exception e') eqn:Hx.
  - destruct e'; try (cbn [fst]; discriminate).
    intros _ _; eexists _, _, _; reflexivity.
  - cbn [fst]; intros H Ha; injection H as <-; unfold api_failure in Ha; congruence.
Qed.

Lemma research_task_google_failure (question : string) (service : handle)
      (st : St W) (e : exn) (w1 : W) :
  cse_list_execute srv service question (world st) = (Raise e, w1) ->
  api_failure e ->
  research_task srv question service st
  = let '(o, s2, t2) := search_wikipedia srv question (mkSt w1 (stdin st)) in
    (match o with
     | Ret summary => Ret (mkResearch (JList []) summary)
     | Raise e' => Raise e'
     | Diverge => Diverge
     end, s2,
     [Log INFO ("Starting research task for: " ++ question);
      Log INFO ("Searching Google for: " ++ question);
      Call "customsearch.cse.list" question;
      Log ERROR ("Google search failed: " ++ str_of_exn e)] ++ t2)%list.
Proof.
  intros Hc Ha; unfold research_task.
  unfold bind at 1, log, emit.
  unfold bind at 1; rewrite (search_google_failure srv question service st e w1 Hc Ha).
  unfold bind.
  destruct (search_wikipedia srv question (mkSt w1 (stdin st))) as [[[s|e'|] s2] t2];
    cbn; rewrite ?app_nil_r; reflexivity.
Qed.

(** The steps before [main] read no input. *)
Lemma startup_no_prompt : emits not_a_prompt (startup srv).
Proof.
  unfold startup.
  apply emits_bind.
  { eapply emits_weaken; [|apply (load_config_trace srv "config.json")].
    intros ev [-> | ->]; exact I. }
  intros config; apply emits_bind.
  { eapply emits_weaken; [|apply (initialize_apis_trace srv config)].
    intros ev [-> | ->]; exact I. }
  intros service; apply emits_bind; [apply emits_call; exact I | intros researcher].
  apply emits_bind; [apply emits_call; exact I | intros analyzer].
  unfold create_crew.
  apply emits_bind; [apply emits_call; exact I | intros t1].
  apply emits_bind; [apply emits_call; exact I | intros t2].
  apply emits_call; exact I.
Qed.

End HelperFacts.

Section MainFacts.
Import Ultimate.
Context {W : Type} (srv : Services W).

Lemma asked_app (a b : list event) : asked (a ++ b) = (asked a ++ asked b)%list.
Proof.
  induction a as [|ev a IH]; simpl; [reflexivity|].
  destruct ev; try exact IH.
  destruct (String.eqb api "crew.kickoff"); simpl; now rewrite IH.
Qed.

Lemma questions_cons (p : string) (ps : list string) :
  questions (p :: ps) = (questions [p] ++ questions ps)%list.
Proof.
  unfold questions; cbn [map filter].
  destruct (negb (String.eqb (lower (strip p)) "help") && negb (String.eqb (strip p) ""));
    reflexivity.
Qed.

Lemma main_round_asked (crew : handle) (w : W) (raw : string) (r : list input_item) :
  crew_answers srv -> not_exit raw ->
  exists w1 t,
    main_round srv crew tt (mkSt w (Line raw :: r)) = (Ret (inl tt), mkSt w1 r, t)
    /\ asked t = questions [raw].
Proof.
  intros Hc Hn; rewrite main_round_line; cbn zeta.
  apply String.eqb_neq in Hn; rewrite Hn.
  unfold questions; cbn [map filter].
  destruct (String.eqb (lower (strip raw)) "help"); cbn [negb andb];
    [eexists _, _; split; reflexivity|].
  destruct (String.eqb (strip raw) ""); cbn [negb];
    [eexists _, _; split; reflexivity|].
  specialize (Hc crew (strip raw) w).
  destruct (kickoff srv crew (strip raw) w) as [[results|e|] w1]; cbn [fst] in Hc.
  - eexists _, _; split; reflexivity.
  - destruct e; try discriminate Hc; eexists _, _; split; reflexivity.
  - contradiction.
Qed.

Lemma main_loop_asked (crew : handle) (pre : list string) (fuel : nat) (w : W)
      (line : string) (rest : list input_item) :
  crew_answers srv -> Forall not_exit pre -> lower (strip line) = "exit" ->
  List.length pre < fuel ->
  exists w' t,
    while_true fuel (main_round srv crew) tt
               (mkSt w (map Line pre ++ Line line :: rest)%list)
    = (Ret tt, mkSt w' rest, t)
    /\ asked t = questions pre.
Proof.
  intros Hc Hpre Hl; revert fuel w.
  induction Hpre as [|p pre Hp _ IH]; intros fuel w Hf.
  - destruct fuel as [|n]; [inversion Hf|].
    cbn [while_true map app]; unfold bind at 1.
    rewrite (main_round_exit srv crew w line rest Hl).
    eexists _, _; split; reflexivity.
  - destruct fuel as [|n]; [inversion Hf|].
    cbn [while_true map app]; unfold bind at 1.
    destruct (main_round_asked crew w p (map Line pre ++ Line line :: rest)%list Hc Hp)
      as (w1 & t1 & -> & A1).
    destruct (IH n w1) as (w' & t & -> & A); [cbn in Hf; lia|].
    eexists _, _; split; [reflexivity|].
    rewrite asked_app, A1, A, <- questions_cons; reflexivity.
Qed.

Lemma entry_point_api_error (st s1 : St W) (config : json) (t1 : list event)
      (e : exn) :
  load_config srv "config.json" st = (Ret config, s1, t1) ->
  outcome_of (initialize_apis srv config s1) = Raise e -> api_failure e ->
  entry_point srv st
  = (Ret tt, final_of (initialize_apis srv config s1),
     ((t1 ++ trace_of (initialize_apis srv config s1)) ++ [Log ERROR (str_of_exn e)])%list).
Proof.
  intros Hl Hi Ha.
  destruct (initialize_apis_raises srv config s1 e Hi Ha) as [cause ->].
  unfold entry_point, try_except.
  unfold bind at 1; rewrite Hl.
  unfold bind at 1.
  unfold outcome_of, final_of, trace_of in *.
  destruct (initialize_apis srv config s1) as [[o s2] t2]; cbn [fst snd] in *; subst o.
  reflexivity.
Qed.

Lemma prompt_after_startup (st : St W) (p : string) :
  In (Prompt p) (trace_of (entry_point srv st)) ->
  exists crew, outcome_of (startup srv st) = Ret crew.
Proof.
  rewrite entry_point_startup; unfold try_except, bind, outcome_of, trace_of.
  pose proof (startup_no_prompt srv st) as Hs; unfold trace_of in Hs.
  rewrite Forall_forall in Hs.
  destruct (startup srv st) as [[[crew|e|] s1] t1]; cbn [fst snd] in *.
  - intros _; exists crew; reflexivity.
  - destruct (is_Exception e).
    + destruct e; cbn; intros H; apply in_app_iff in H as [H|[H|[]]];
        try discriminate H; destruct (Hs _ H).
    + cbn; intros H; destruct (Hs _ H).
  - intros H; destruct (Hs _ H).
Qed.

End MainFacts.

(** X14. [search_google] never raises an [Exception]; it returns the value
    under "items" of the response, the empty list when the response has no
    such entry, and the empty list as well when the response is not a dict. *)
Theorem X14_search_google_contained {W : Type} (srv : Ultimate.Services W)
        (query : string) (service : Ultimate.handle) (st : St W) :
  (forall e,
      outcome_of (Ultimate.search_google srv query service st) = Raise e ->
      ~ api_failure e) /\
  (forall res w1,
      Ultimate.cse_list_execute srv service query (world st) = (Ret res, w1) ->
      outcome_of (Ultimate.search_google srv query service st)
      = Ret match res with
            | Ultimate.JDict entries =>
                match Ultimate.lookup "items" entries with
                | Some v => v
                | None => Ultimate.JList []
                end
            | _ => Ultimate.JList []
            end).
Proof.
  split.
  - intros e; apply search_google_escapes.
  - intros res w1 Hc.
    destruct (search_google_answer srv query service st res w1 Hc)
      as (found & tr & -> & ->); reflexivity.
Qed.

Lemma X14_response_without_items :
  Ultimate.cse_list_execute crew_fails_services 0 "Ada" tt
  = (Ret (Ultimate.JDict []), tt) /\
  outcome_of (Ultimate.search_google crew_fails_services "Ada" 0 no_input)
  = Ret (Ultimate.JList []).
Proof.
  split; [reflexivity|].
  exact (proj2 (X14_search_google_contained crew_fails_services "Ada" 0 no_input)
               (Ultimate.JDict []) tt eq_refl).
Defined.

(** X15. [analyze_task] asks the model with the Google results and the
    Wikipedia text put into one context, returns its answer, returns the
    fixed error text when the call fails, and never raises an [Exception]. *)
Theorem X15_analyze_task_contained {W : Type} (srv : Ultimate.Services W)
        (results : Ultimate.research) (question : string) (st : St W) :
  let context :=
    "Google Results: " ++ Ultimate.py_format srv (Ultimate.google_results results) ++ nl
    ++ "Wikipedia Results: " ++ Ultimate.wikipedia_results results in
  let content := "Context: " ++ context ++ nl ++ "Question: " ++ question in
  (forall answer w1,
      Ultimate.chat_completion srv content (world st) = (Ret answer, w1) ->
      outcome_of (Ultimate.analyze_task srv results question st) = Ret answer) /\
  (forall e w1,
      Ultimate.chat_completion srv content (world st) = (Raise e, w1) ->
      api_failure e ->
      outcome_of (Ultimate.analyze_task srv results question st)
      = Ret "Error generating response from ChatGPT.") /\
  (forall e,
      outcome_of (Ultimate.analyze_task srv results question st) = Raise e ->
      ~ api_failure e).
Proof.
  cbn zeta; unfold Ultimate.analyze_task, bind, log, emit.
  split; [|split].
  - intros answer w1 Hc.
    rewrite (ask_chatgpt_answer srv question _ st answer w1 Hc); reflexivity.
  - intros e w1 Hc Ha.
    rewrite (ask_chatgpt_failure srv question _ st e w1 Hc Ha); reflexivity.
  - intros e H.
    apply (ask_chatgpt_escapes srv question
             ("Google Results: " ++ Ultimate.py_format srv (Ultimate.google_results results)
              ++ nl ++ "Wikipedia Results: " ++ Ultimate.wikipedia_results results) st).
    unfold outcome_of in *.
    destruct (Ultimate.ask_chatgpt srv question _ st) as [[o s] t]; exact H.
Qed.

Lemma X15_model_overloaded :
  api_failure (OtherError "model overloaded") /\
  outcome_of (Ultimate.analyze_task build_fails_services
                (Ultimate.mkResearch (Ultimate.JList []) "A summary.") "Who is Ada"
                no_input)
  = Ret "Error generating response from ChatGPT.".
Proof.
  split; [reflexivity|].
  destruct (X15_analyze_task_contained build_fails_services
              (Ultimate.mkResearch (Ultimate.JList []) "A summary.") "Who is Ada"
              no_input) as (_ & H & _).
  exact (H (OtherError "model overloaded") tt eq_refl eq_refl).
Defined.

(** X16. On a disambiguation error [search_wikipedia] asks again, for the
    first option offered, and whatever that second call gives, a summary or
    an exception, is what [search_wikipedia] gives; with no option offered
    it ends with [IndexError].  This is the only way an [Exception] leaves
    [search_wikipedia]. *)
Theorem X16_disambiguation_retry {W : Type} (srv : Ultimate.Services W)
        (query : string) (st : St W) :
  (forall m first others w1,
      Ultimate.wikipedia_summary srv query (world st)
      = (Raise (DisambiguationError m (first :: others)), w1) ->
      outcome_of (Ultimate.search_wikipedia srv query st)
      = fst (Ultimate.wikipedia_summary srv first w1) /\
      calls (trace_of (Ultimate.search_wikipedia srv query st))
      = [Call "wikipedia.summary" query; Call "wikipedia.summary" first]) /\
  (forall m w1,
      Ultimate.wikipedia_summary srv query (world st)
      = (Raise (DisambiguationError m []), w1) ->
      outcome_of (Ultimate.search_wikipedia srv query st)
      = Raise (IndexError "list index out of range")) /\
  (forall e,
      outcome_of (Ultimate.search_wikipedia srv query st) = Raise e ->
      api_failure e ->
      exists m options w1,
        Ultimate.wikipedia_summary srv query (world st)
        = (Raise (DisambiguationError m options), w1)).
Proof.
  split; [|split].
  - intros m first others w1 Hc.
    rewrite (search_wikipedia_ambiguous srv query st m (first :: others) w1 Hc).
    cbn zeta; destruct (Ultimate.wikipedia_summary srv first w1) as [o w2].
    split; reflexivity.
  - intros m w1 Hc.
    rewrite (search_wikipedia_ambiguous srv query st m [] w1 Hc); reflexivity.
  - intros e; apply search_wikipedia_escapes.
Qed.

Lemma X16_mercury :
  outcome_of (Ultimate.search_wikipedia ambiguous_services "Mercury" no_input)
  = Raise no_page_error /\
  calls (trace_of (Ultimate.search_wikipedia ambiguous_services "Mercury" no_input))
  = [Call "wikipedia.summary" "Mercury"; Call "wikipedia.summary" "Mercury (planet)"].
Proof.
  exact (proj1 (X16_disambiguation_retry ambiguous_services "Mercury" no_input)
               "Mercury may refer to several pages" "Mercury (planet)"
               ["Mercury (element)"] tt eq_refl).
Defined.

(** X17. A failure of the Google search does not stop [research_task]: the
    error is logged, the Wikipedia search is still made, and the result
    holds the empty list as Google results beside the Wikipedia text; only
    what the Wikipedia search raises is raised. *)
Theorem X17_research_survives_google {W : Type} (srv : Ultimate.Services W)
        (question : string) (service : Ultimate.handle) (st : St W)
        (e : exn) (w1 : W) :
  Ultimate.cse_list_execute srv service question (world st) = (Raise e, w1) ->
  api_failure e ->
  Ultimate.research_task srv question service st
  = let '(o, s2, t2) := Ultimate.search_wikipedia srv question (mkSt w1 (stdin st)) in
    (match o with
     | Ret summary => Ret (Ultimate.mkResearch (Ultimate.JList []) summary)
     | Raise e' => Raise e'
     | Diverge => Diverge
     end, s2,
     [Log INFO ("Starting research task for: " ++ question);
      Log INFO ("Searching Google for: " ++ question);
      Call "customsearch.cse.list" question;
      Log ERROR ("Google search failed: " ++ str_of_exn e)] ++ t2)%list.
Proof. apply research_task_google_failure. Qed.

Lemma X17_quota_exceeded :
  api_failure (OtherError "quota exceeded") /\
  outcome_of (Ultimate.research_task build_fails_services "Who is Ada" 0 no_input)
  = Ret (Ultimate.mkResearch (Ultimate.JList []) "A summary.").
Proof.
  split; [reflexivity|].
  rewrite (X17_research_survives_google build_fails_services "Who is Ada" 0 no_input
             (OtherError "quota exceeded") tt eq_refl eq_refl).
  reflexivity.
Defined.

(** X18. With a crew that answers or fails, the questions [main] hands to
    the crew are the lines entered before the sentinel, stripped, without
    the empty ones and the requests for help, each once and in the order of
    entry; a failure of the crew on one question does not keep the later
    ones from being asked. *)
Theorem X18_questions_asked {W : Type} (srv : Ultimate.Services W)
        (crew : Ultimate.handle) (w : W) (pre : list string) (line : string)
        (rest : list input_item) :
  crew_answers srv -> Forall not_exit pre -> lower (strip line) = "exit" ->
  asked (trace_of (Ultimate.main srv crew
                     (mkSt w (map Line pre ++ Line line :: rest)%list)))
  = questions pre.
Proof.
  intros Hc Hpre Hl.
  unfold Ultimate.main, bind, log, emit, input_loop; cbn [stdin].
  destruct (main_loop_asked srv crew pre
              (S (List.length (map Line pre ++ Line line :: rest)%list)) w line rest
              Hc Hpre Hl) as (w' & t & -> & A).
  - rewrite length_app, length_map; cbn; lia.
  - unfold trace_of; cbn [snd app asked]; exact A.
Qed.

Lemma X18_failing_crew_is_asked_each_question :
  crew_answers crew_fails_services /\
  asked (trace_of (Ultimate.main crew_fails_services 2
                     (mkSt tt [Line "What is Rocq"; Line "HELP"; Line "   ";
                               Line "  Who is Ada "; Line "Exit"; Line "later"])))
  = ["What is Rocq"; "Who is Ada"].
Proof.
  assert (Hc : crew_answers crew_fails_services).
  { intros crew question w; reflexivity. }
  split; [exact Hc|].
  assert (Hp : Forall not_exit ["What is Rocq"; "HELP"; "   "; "  Who is Ada "]).
  { repeat constructor; unfold not_exit; vm_compute; discriminate. }
  pose proof (X18_questions_asked crew_fails_services 2 tt
                ["What is Rocq"; "HELP"; "   "; "  Who is Ada "] "Exit" [Line "later"]
                Hc Hp eq_refl) as E.
  cbn [map app] in E; rewrite E; reflexivity.
Defined.

(** X19. When [initialize_apis] fails after the configuration was loaded,
    the entry point logs the message of the [APIError] and returns: no
    agent, task or crew is constructed and the user is not prompted. *)
Theorem X19_api_failure_ends_start {W : Type} (srv : Ultimate.Services W)
        (st s1 : St W) (config : Ultimate.json) (t1 : list event) (e : exn) :
  Ultimate.load_config srv "config.json" st = (Ret config, s1, t1) ->
  outcome_of (Ultimate.initialize_apis srv config s1) = Raise e ->
  api_failure e ->
  outcome_of (Ultimate.entry_point srv st) = Ret tt /\
  trace_of (Ultimate.entry_point srv st)
  = ((t1 ++ trace_of (Ultimate.initialize_apis srv config s1))
     ++ [Log ERROR (str_of_exn e)])%list /\
  Forall (fun ev => ~ constructs ev /\ not_a_prompt ev)
         (trace_of (Ultimate.entry_point srv st)).
Proof.
  intros Hl Hi Ha.
  rewrite (entry_point_api_error srv st s1 config t1 e Hl Hi Ha).
  split; [reflexivity | split; [reflexivity|]].
  unfold trace_of at 1; cbn [snd].
  pose proof (load_config_trace srv "config.json" st) as H1.
  rewrite Hl in H1; unfold trace_of in H1; cbn [snd] in H1.
  pose proof (initialize_apis_trace srv config s1) as H2.
  apply Forall_app; split; [apply Forall_app; split|].
  - eapply Forall_impl; [|exact H1].
    intros ev [-> | ->]; (split; [intros [arg [H|[H|H]]]; discriminate H | exact I]).
  - eapply Forall_impl; [|exact H2].
    intros ev [-> | ->]; (split; [intros [arg [H|[H|H]]]; discriminate H | exact I]).
  - repeat constructor; intros [arg [H|[H|H]]]; discriminate H.
Qed.

Lemma X19_invalid_developer_key :
  outcome_of (Ultimate.entry_point build_fails_services no_input) = Ret tt /\
  trace_of (Ultimate.entry_point build_fails_services no_input)
  = [Call "os.path.exists" "config.json"; Call "open" "config.json";
     Call "googleapiclient.discovery.build" "customsearch";
     Log ERROR "Failed to initialize APIs: invalid developer key"].
Proof.
  destruct (X19_api_failure_ends_start build_fails_services no_input no_input
              full_config
              [Call "os.path.exists" "config.json"; Call "open" "config.json"]
              (APIError "Failed to initialize APIs: invalid developer key")
              eq_refl eq_refl eq_refl) as (Ho & Ht & _).
  split; [exact Ho | rewrite Ht; reflexivity].
Defined.

(** X20. The user is prompted only after a complete start: if a prompt
    appears in a run of the entry point, the configuration was loaded, the
    APIs were initialized and the agents and the crew were constructed. *)
Theorem X20_prompt_only_after_start {W : Type} (srv : Ultimate.Services W)
        (st : St W) (p : string) :
  In (Prompt p) (trace_of (Ultimate.entry_point srv st)) ->
  exists crew, outcome_of (startup srv st) = Ret crew.
Proof. apply prompt_after_startup. Qed.

Lemma X20_prompted_run_has_started :
  In ask_prompt (trace_of (Ultimate.entry_point crew_fails_services
                             (mkSt tt [Line "exit"]))) /\
  exists crew, outcome_of (startup crew_fails_services (mkSt tt [Line "exit"])) = Ret crew.
Proof.
  assert (H : In ask_prompt (trace_of (Ultimate.entry_point crew_fails_services
                                         (mkSt tt [Line "exit"])))).
  { vm_compute; tauto. }
  split; [exact H|].
  exact (X20_prompt_only_after_start crew_fails_services (mkSt tt [Line "exit"]) _ H).
Defined.
